(** * energybot: rate tracking and notification de-duplication

    A shallow embedding of [energybot.py]: the rate parsers, the offer
    normaliser and ranker, the savings calculator, the [setrate] command and
    the scheduled [daily_check] pass, followed by the properties of the
    specification that concern them.

    Modelling conventions.
    - Text is ASCII: a Python [str] is a [string] (a [list ascii] inside the
      parsers).  [str.strip], [\d] and [Decimal] accept further Unicode
      white space and digits, which are outside this model.
    - [decimal.Decimal] is a sign, a natural coefficient and an integer
      exponent, or one of the special values.  The default context is
      modelled: precision 28, rounding half-even for arithmetic, the
      [InvalidOperation] trap enabled.  The exponent limits of the context
      (|exponent| around 999999) are not modelled.
    - Exceptions are values of [exn]; a function that can raise returns a
      [result].  The Discord client, the browser and the JSON file are the
      environment: their answers are parameters, their effects are recorded
      in an explicit [world]. *)

From Stdlib Require Import ZArith NArith List Bool Lia Ascii String.
From Stdlib Require Import Sorted Permutation DecimalString.
Import ListNotations.

Open Scope Z_scope.

(** ** Exceptions and results *)

(** The five distinct messages of [RateParseError] in [parse_user_rate]. *)
Inductive RateParseErrorKind : Type :=
| NegativeRate      (* "Rate cannot be negative." *)
| BadFormat         (* "Formatting should be 0.xxxxx (must start with 0. and use digits)." *)
| TooFewDigits      (* "Formatting should be 0.xxxxx (needs at least 5 digits after the decimal)." *)
| NotADecimal       (* "That rate isn't a valid decimal number." *)
| OutOfRange.       (* "Rate must be less than 1.00000 (prices should start with 0.xxxxx)." *)

Inductive exn : Type :=
| RateParseError (k : RateParseErrorKind)
| InvalidOperation            (* decimal.InvalidOperation *)
| RuntimeError                (* raised by fetch_offers on a bad response *)
| Forbidden                   (* discord.Forbidden, a subclass of HTTPException *)
| HTTPException               (* any other discord.HTTPException, e.g. NotFound *)
| OtherError.                 (* any other Exception of the environment *)

Inductive result (A : Type) : Type :=
| Ok (a : A)
| Raise (e : exn).
Arguments Ok {A} a.
Arguments Raise {A} e.

Definition bind {A B} (r : result A) (k : A -> result B) : result B :=
  match r with
  | Ok a => k a
  | Raise e => Raise e
  end.

Notation "x <- r ;; k" := (bind r (fun x => k))
  (at level 61, r at next level, right associativity).

(** ** Characters and strings *)

Module Text.

Definition code (c : ascii) : Z := Z.of_N (N_of_ascii c).

(** [str.isspace] on ASCII: TAB..CR, FS..US and the space. *)
Definition isspace (c : ascii) : bool :=
  ((9 <=? code c) && (code c <=? 13)) || ((28 <=? code c) && (code c <=? 32)).

(** [\d] on ASCII. *)
Definition isdigit (c : ascii) : bool :=
  (48 <=? code c) && (code c <=? 57).

Definition digit_val (c : ascii) : N := N_of_ascii c - 48.

Fixpoint lstrip (l : list ascii) : list ascii :=
  match l with
  | c :: r => if isspace c then lstrip r else l
  | [] => []
  end.

(** [str.strip()] *)
Definition strip (l : list ascii) : list ascii :=
  rev (lstrip (rev (lstrip l))).

(** ASCII lower-casing, for the case-insensitive keywords of [Decimal]. *)
Definition lower (c : ascii) : ascii :=
  if (65 <=? code c) && (code c <=? 90)
  then ascii_of_N (N_of_ascii c + 32) else c.

(** The maximal prefix of digits, and what follows it. *)
Fixpoint span_digits (l : list ascii) : list ascii * list ascii :=
  match l with
  | c :: r =>
      if isdigit c
      then let (d, t) := span_digits r in (c :: d, t)
      else ([], l)
  | [] => ([], [])
  end.

(** [int(ds)] for a list of digits. *)
Definition digits_val (ds : list ascii) : N :=
  fold_left (fun acc c => (acc * 10 + digit_val c)%N) ds 0%N.

Definition startswith_minus (l : list ascii) : bool :=
  match l with
  | "-"%char :: _ => true
  | _ => false
  end.

Definition eqb_chars (a b : list ascii) : bool :=
  String.eqb (string_of_list_ascii a) (string_of_list_ascii b).

End Text.

(** ** decimal.Decimal *)

Module Dec.

(** A finite Decimal: [(-1)^dneg * dcoef * 10^dexp]. *)
Record fdec : Type := mkdec { dneg : bool; dcoef : N; dexp : Z }.

Inductive Decimal : Type :=
| Fin (d : fdec)
| Inf (neg : bool)
| NaN (signaling : bool).

Definition prec : Z := 28.

Definition signed (d : fdec) : Z :=
  if dneg d then - Z.of_N (dcoef d) else Z.of_N (dcoef d).

(** [Decimal(n)] for a Python int. *)
Definition of_int (n : Z) : fdec := mkdec (n <? 0) (Z.abs_N n) 0.

(** Numeric comparison of two finite Decimals, at their common exponent. *)
Definition fcompare (a b : fdec) : comparison :=
  let m := Z.min (dexp a) (dexp b) in
  (signed a * 10 ^ (dexp a - m)) ?= (signed b * 10 ^ (dexp b - m)).

(** [None] when an operand is a NaN. *)
Definition compare (a b : Decimal) : option comparison :=
  match a, b with
  | NaN _, _ | _, NaN _ => None
  | Fin x, Fin y => Some (fcompare x y)
  | Inf s, Inf t =>
      Some (if Bool.eqb s t then Eq else if s then Lt else Gt)
  | Inf s, Fin _ => Some (if s then Lt else Gt)
  | Fin _, Inf t => Some (if t then Gt else Lt)
  end.

(** The ordering operators signal [InvalidOperation] on a NaN, which the
    default context traps. *)
Definition lt (a b : Decimal) : result bool :=
  match compare a b with
  | Some Lt => Ok true
  | Some _ => Ok false
  | None => Raise InvalidOperation
  end.

Definition le (a b : Decimal) : result bool :=
  match compare a b with
  | Some Gt => Ok false
  | Some _ => Ok true
  | None => Raise InvalidOperation
  end.

Definition ge (a b : Decimal) : result bool :=
  match compare a b with
  | Some Lt => Ok false
  | Some _ => Ok true
  | None => Raise InvalidOperation
  end.

(** *** Construction from a string

    [Decimal(s)]: white space stripped, underscores removed, then
    [[sign] (digits [. digits] [E [sign] digits] | Inf[inity] | [s]NaN digits)],
    keywords in any case.  The conversion is exact. *)

Definition is_e (c : ascii) : bool :=
  Ascii.eqb (Text.lower c) "e"%char.

Definition parse_exponent (l : list ascii) : option Z :=
  let '(neg, r) :=
    match l with
    | "+"%char :: r => (false, r)
    | "-"%char :: r => (true, r)
    | _ => (false, l)
    end in
  let (ds, t) := Text.span_digits r in
  match ds, t with
  | _ :: _, [] =>
      Some (if neg then - Z.of_N (Text.digits_val ds)
            else Z.of_N (Text.digits_val ds))
  | _, _ => None
  end.

Definition parse_finite (neg : bool) (l : list ascii) : option fdec :=
  let (ip, r1) := Text.span_digits l in
  let (fp, r2) :=
    match r1 with
    | "."%char :: r => Text.span_digits r
    | _ => ([], r1)
    end in
  match ip ++ fp with
  | [] => None
  | ds =>
      let e :=
        match r2 with
        | [] => Some 0
        | c :: r => if is_e c then parse_exponent r else None
        end in
      match e with
      | Some e => Some (mkdec neg (Text.digits_val ds) (e - Z.of_nat (List.length fp)))
      | None => None
      end
  end.

Definition parse_special (l : list ascii) : option Decimal :=
  let w := map Text.lower l in
  if Text.eqb_chars w (list_ascii_of_string "inf")
     || Text.eqb_chars w (list_ascii_of_string "infinity")
  then Some (Inf false)
  else
    match w with
    | "n"%char :: "a"%char :: "n"%char :: diag =>
        if forallb Text.isdigit diag then Some (NaN false) else None
    | "s"%char :: "n"%char :: "a"%char :: "n"%char :: diag =>
        if forallb Text.isdigit diag then Some (NaN true) else None
    | _ => None
    end.

(** The sign of a NaN and its diagnostic digits are not kept. *)
Definition with_sign (neg : bool) (d : Decimal) : Decimal :=
  match d with
  | Inf _ => Inf neg
  | other => other
  end.

Definition is_underscore (c : ascii) : bool := Ascii.eqb c "_"%char.

(** [Decimal(s)]; raises [InvalidOperation] on a malformed string. *)
Definition of_chars (s : list ascii) : result Decimal :=
  let l := filter (fun c => negb (is_underscore c)) (Text.strip s) in
  let '(neg, body) :=
    match l with
    | "+"%char :: r => (false, r)
    | "-"%char :: r => (true, r)
    | _ => (false, l)
    end in
  match parse_finite neg body with
  | Some d => Ok (Fin d)
  | None =>
      match parse_special body with
      | Some d => Ok (with_sign neg d)
      | None => Raise InvalidOperation
      end
  end.

Definition of_string (s : string) : result Decimal :=
  of_chars (list_ascii_of_string s).

(** *** Rounding *)

(** [n] rounded half-up to a multiple of [10^k], divided by [10^k]. *)
Definition div_half_up (n : Z) (k : Z) : Z :=
  let p := 10 ^ k in
  n / p + (if p <=? 2 * (n mod p) then 1 else 0).

(** The same with ties to the even neighbour (the context's rounding). *)
Definition div_half_even (n : Z) (k : Z) : Z :=
  let p := 10 ^ k in
  let q := n / p in
  let r := 2 * (n mod p) in
  if p <? r then q + 1
  else if (p =? r) && Z.odd q then q + 1
  else q.

(** The coefficient of [d] at exponent [q], rounding half-up
    ([Decimal._rescale] with [ROUND_HALF_UP]). *)
Definition rescale_half_up (d : fdec) (q : Z) : fdec :=
  let c := Z.of_N (dcoef d) in
  if q <=? dexp d
  then mkdec (dneg d) (Z.to_N (c * 10 ^ (dexp d - q))) q
  else mkdec (dneg d) (Z.to_N (div_half_up c (q - dexp d))) q.

(** [d.quantize(Decimal("1E<q>"), rounding=ROUND_HALF_UP)].
    [InvalidOperation] when the operand is infinite or a signaling NaN, or
    when the result would need more than [prec] digits; for the exponents
    used here ([-5] and [-2]) the precision test subsumes the test against
    the largest exponent of the context. *)
Definition quantize_half_up (d : Decimal) (q : Z) : result Decimal :=
  match d with
  | NaN true => Raise InvalidOperation
  | NaN false => Ok (NaN false)
  | Inf _ => Raise InvalidOperation
  | Fin x =>
      if (dcoef x =? 0)%N then Ok (Fin (mkdec (dneg x) 0 q))
      else if 10 ^ (prec + q - dexp x) <=? Z.of_N (dcoef x)
      then Raise InvalidOperation
      else
        let ans := rescale_half_up x q in
        if 10 ^ prec <=? Z.of_N (dcoef ans)
        then Raise InvalidOperation
        else Ok (Fin ans)
  end.

(** *** Arithmetic in the default context *)

Definition ndigits (n : N) : Z :=
  Z.of_nat (Decimal.nb_digits (N.to_uint n)).

(** [Decimal._fix]: a coefficient of more than [prec] digits is rounded
    half-even to [prec] digits. *)
Definition fix_prec (d : fdec) : fdec :=
  if Z.of_N (dcoef d) <? 10 ^ prec then d
  else
    let k := ndigits (dcoef d) - prec in
    let c := div_half_even (Z.of_N (dcoef d)) k in
    if c <? 10 ^ prec
    then mkdec (dneg d) (Z.to_N c) (dexp d + k)
    else mkdec (dneg d) (Z.to_N (c / 10)) (dexp d + k + 1).

(** The exact difference of two finite Decimals, at the smaller exponent.
    A zero difference is negative only when [a] is negative and [b] is
    positive (both addends of [a + (-b)] negative). *)
Definition fsub_exact (a b : fdec) : fdec :=
  let m := Z.min (dexp a) (dexp b) in
  let v := signed a * 10 ^ (dexp a - m) - signed b * 10 ^ (dexp b - m) in
  if v =? 0 then mkdec (dneg a && negb (dneg b)) 0 m
  else mkdec (v <? 0) (Z.abs_N v) m.

Definition fmul_exact (a b : fdec) : fdec :=
  mkdec (xorb (dneg a) (dneg b)) (dcoef a * dcoef b) (dexp a + dexp b).

(** [a - b].  A signaling NaN raises, a quiet one propagates; the
    difference of two infinities of one sign is invalid. *)
Definition sub (a b : Decimal) : result Decimal :=
  match a, b with
  | NaN true, _ | _, NaN true => Raise InvalidOperation
  | NaN false, _ | _, NaN false => Ok (NaN false)
  | Inf s, Inf t => if Bool.eqb s t then Raise InvalidOperation else Ok (Inf s)
  | Inf s, Fin _ => Ok (Inf s)
  | Fin _, Inf t => Ok (Inf (negb t))
  | Fin x, Fin y => Ok (Fin (fix_prec (fsub_exact x y)))
  end.

(** [a * b].  Zero times an infinity is invalid. *)
Definition mul (a b : Decimal) : result Decimal :=
  match a, b with
  | NaN true, _ | _, NaN true => Raise InvalidOperation
  | NaN false, _ | _, NaN false => Ok (NaN false)
  | Inf s, Inf t => Ok (Inf (xorb s t))
  | Inf s, Fin y =>
      if (dcoef y =? 0)%N then Raise InvalidOperation
      else Ok (Inf (xorb s (dneg y)))
  | Fin x, Inf t =>
      if (dcoef x =? 0)%N then Raise InvalidOperation
      else Ok (Inf (xorb (dneg x) t))
  | Fin x, Fin y => Ok (Fin (fix_prec (fmul_exact x y)))
  end.

(** *** Formatting *)

Definition digit_char (n : Z) : ascii := ascii_of_N (Z.to_N (48 + n mod 10)).

(** The last [k] decimal digits of [n], most significant first. *)
Fixpoint last_digits (k : nat) (n : Z) (acc : list ascii) : list ascii :=
  match k with
  | O => acc
  | S k' => last_digits k' (n / 10) (digit_char n :: acc)
  end.

(** [format(d, ".<k>f")] for a Decimal whose exponent is already [-k], as
    is every value the program formats (each was quantized first), so that
    no rounding takes place. *)
Definition format_f (k : nat) (d : Decimal) : string :=
  match d with
  | NaN _ => "NaN"
  | Inf s => if s then "-Infinity" else "Infinity"
  | Fin x =>
      let c := Z.of_N (dcoef x) in
      ((if dneg x then "-" else "")
         ++ NilZero.string_of_uint (N.to_uint (Z.to_N (c / 10 ^ Z.of_nat k)))
         ++ "."
         ++ string_of_list_ascii (last_digits k c []))%string
  end.

(** The quantum [Q5 = Decimal("0.00001")] is the exponent [-5]. *)
Definition Q5 : Z := -5.

End Dec.

Import Dec.

(** ** Rate parsing / validation *)

(** [RATE_INPUT_RE = ^0\.(\d+)$], matched from the start of the text; the
    result is group 1.  [$] also matches just before a final newline. *)
Definition RATE_INPUT_RE_match (s : list ascii) : option (list ascii) :=
  match s with
  | "0"%char :: "."%char :: rest =>
      let (frac, tail) := Text.span_digits rest in
      match frac, tail with
      | _ :: _, [] => Some frac
      | _ :: _, ["010"%char] => Some frac
      | _, _ => None
      end
  | _ => None
  end.

Definition parse_user_rate (raw : string) : result Decimal :=
  let s := Text.strip (list_ascii_of_string raw) in
  if Text.startswith_minus s then Raise (RateParseError NegativeRate)
  else
    match RATE_INPUT_RE_match s with
    | None => Raise (RateParseError BadFormat)
    | Some frac =>
        if (List.length frac <? 5)%nat then Raise (RateParseError TooFewDigits)
        else
          match of_chars s with
          | Raise _ => Raise (RateParseError NotADecimal)
          | Ok d =>
              neg <- lt d (Fin (of_int 0)) ;;
              if neg then Raise (RateParseError NegativeRate)
              else
                big <- ge d (Fin (of_int 1)) ;;
                if big then Raise (RateParseError OutOfRange)
                else quantize_half_up d Q5
          end
    end.

(** ** The offer feed *)

(** A scalar of the feed's JSON.  A number is carried as the text that
    Python's [str] prints for it (the digits of an int, the shortest [repr]
    of a float). *)
Inductive scalar : Type :=
| SNull
| SBool (b : bool)
| SNum (text : string)
| SStr (s : string).

Definition py_str (v : scalar) : string :=
  match v with
  | SNull => "None"
  | SBool true => "True"
  | SBool false => "False"
  | SNum text => text
  | SStr s => s
  end.

(** One element of [results] / [compareResults]; [None] is a missing key. *)
Record raw_offer : Type := mkraw {
  r_id : option scalar;
  r_supplier : option string;
  r_title : option string;
  r_offerType : option string;
  r_termOfOffer : option string;
  r_fees : option (list string);
  r_recLabel : option string;
  r_standardOffer : option bool;
  r_rate : option scalar;
  r_blendedRate : option scalar;
  r_contentUrl : option string;
  r_offerLink_uri : option string
}.

(** [obj.get(key)]: a missing key and a JSON null both give [None]. *)
Definition get_scalar (f : option scalar) : option scalar :=
  match f with
  | Some SNull | None => None
  | Some v => Some v
  end.

Definition parse_offer_rate (obj : raw_offer) : result (option fdec) :=
  let val :=
    match get_scalar (r_rate obj) with
    | Some v => Some v
    | None => get_scalar (r_blendedRate obj)
    end in
  match val with
  | None => Ok None
  | Some v =>
      match of_string (py_str v) with
      | Raise _ => Ok None
      | Ok d =>
          neg <- lt d (Fin (of_int 0)) ;;
          if neg then Ok None
          else
            big <- ge d (Fin (of_int 1)) ;;
            if big then Ok None
            else
              q <- quantize_half_up d Q5 ;;
              match q with
              | Fin x => Ok (Some x)
              | _ => Raise InvalidOperation (* no special value gets here *)
              end
      end
  end.

Record Offer : Type := mkoffer {
  id : string;
  supplier : string;
  title : string;
  offerType : string;
  termOfOffer : string;
  fees : list string;
  recLabel : option string;
  standardOffer : bool;
  rate_dec : fdec;
  rate_str : string;
  energizect_url : option string;
  enroll_url : option string
}.

(** [a or b or default] on optional strings: an empty string is falsy. *)
Definition or_str (a : option string) (rest : string) : string :=
  match a with
  | Some s => if String.eqb s "" then rest else s
  | None => rest
  end.

Definition startswith_slash (s : string) : bool :=
  match s with
  | String "/"%char _ => true
  | _ => false
  end.

Definition make_offer (o : raw_offer) (rdec : fdec) : Offer :=
  let content_url := or_str (r_contentUrl o) "" in
  {| id := match r_id o with Some v => py_str v | None => "" end;
     supplier := or_str (r_supplier o) (or_str (r_title o) "Unknown Supplier");
     title := or_str (r_title o) (or_str (r_supplier o) "Offer");
     offerType := or_str (r_offerType o) "Unknown";
     termOfOffer := or_str (r_termOfOffer o) "Unknown term";
     fees := match r_fees o with Some l => l | None => [] end;
     recLabel := r_recLabel o;
     standardOffer := match r_standardOffer o with Some b => b | None => false end;
     rate_dec := rdec;
     rate_str := format_f 5 (Fin rdec);
     energizect_url :=
       if startswith_slash content_url
       then Some ("https://www.energizect.com" ++ content_url)%string
       else None;
     enroll_url := r_offerLink_uri o |}.

(** The loop of [fetch_offers] over [offers_raw]. *)
Fixpoint normalize (offers_raw : list raw_offer) : result (list Offer) :=
  match offers_raw with
  | [] => Ok []
  | o :: rest =>
      rdec <- parse_offer_rate o ;;
      tl <- normalize rest ;;
      match rdec with
      | None => Ok tl
      | Some d => Ok (make_offer o d :: tl)
      end
  end.

(** [key(a) < key(b)] for the key [x["rate_dec"]]. *)
Definition rate_lt (a b : fdec) : bool :=
  match fcompare a b with
  | Lt => true
  | _ => false
  end.

(** [list.sort(key=...)] is a stable sort that compares keys with [<] only.
    It is modelled by the stable insertion sort; the result of a stable
    sort is determined by the input. *)
Fixpoint insert_offer (x : Offer) (l : list Offer) : list Offer :=
  match l with
  | [] => [x]
  | y :: r =>
      if rate_lt (rate_dec y) (rate_dec x) then y :: insert_offer x r
      else x :: l
  end.

Definition sort_by_rate (l : list Offer) : list Offer :=
  fold_right insert_offer [] l.

(** The JSON document of the feed; either array may be missing. *)
Record feed : Type := mkfeed {
  results : option (list raw_offer);
  compareResults : option (list raw_offer)
}.

Definition or_nil {A} (l : option (list A)) : list A :=
  match l with
  | Some l => l
  | None => []
  end.

(** [fetch_offers], given the outcome of the browser request ([page.goto]
    and [response.json()], or the exception they ended with). *)
Definition fetch_offers (response : result feed) : result (list Offer) :=
  data <- response ;;
  let offers_raw := or_nil (results data) ++ or_nil (compareResults data) in
  offers <- normalize offers_raw ;;
  Ok (sort_by_rate offers).

(** ** Savings *)

Definition money_savings_per_month
    (user_rate best_rate : Decimal) (monthly_kwh : Z) : result Decimal :=
  diff <- sub user_rate best_rate ;;
  nonpos <- le diff (Fin (of_int 0)) ;;
  if nonpos then Ok (Fin (mkdec false 0 (-2)))
  else
    p <- mul diff (Fin (of_int monthly_kwh)) ;;
    quantize_half_up p (-2).

(** ** The persisted store *)

(** One value of [rates.json].  The outer [option] of a field tells whether
    the key is present; an inner [None] is a JSON null. *)
Record user_info : Type := mkinfo {
  rate : option string;
  notify_channel_id : option (option Z);
  notify_guild_id : option (option Z);
  last_notified_offer_id : option (option string);
  last_notified_rate : option (option string)
}.

Definition empty_info : user_info := mkinfo None None None None None.

(** [info.get(key)] *)
Definition get {A} (f : option (option A)) : option A :=
  match f with
  | Some v => v
  | None => None
  end.

(** [info.setdefault(key, None)] *)
Definition setdefault_none {A} (f : option (option A)) : option (option A) :=
  match f with
  | Some v => Some v
  | None => Some None
  end.

(** The mapping of the file, in the order of its keys.  A key is
    [str(user_id)] and [int(key)] gives the id back: the model keeps the id. *)
Definition store : Type := list (Z * user_info).

Fixpoint dict_get (uid : Z) (data : store) : option user_info :=
  match data with
  | [] => None
  | (k, v) :: rest => if k =? uid then Some v else dict_get uid rest
  end.

(** [data[uid] = v]: in place for a known key, at the end for a new one. *)
Fixpoint dict_set (uid : Z) (v : user_info) (data : store) : store :=
  match data with
  | [] => [(uid, v)]
  | (k, w) :: rest =>
      if k =? uid then (k, v) :: rest else (k, w) :: dict_set uid v rest
  end.

Definition key_of (uid : Z) : string := NilZero.string_of_int (Z.to_int uid).

(** [json.dump(..., sort_keys=True)] writes the keys in string order. *)
Fixpoint insert_key (x : Z * user_info) (l : store) : store :=
  match l with
  | [] => [x]
  | y :: r =>
      if String.ltb (key_of (fst y)) (key_of (fst x)) then y :: insert_key x r
      else x :: l
  end.

Definition sort_keys (data : store) : store := fold_right insert_key [] data.

(** ** The world: the file, and what was sent *)

(** The content of a notification ([text] in [daily_check]); its rendering
    as lines of text is not modelled. *)
Record notification : Type := mknote {
  n_user_rate : Decimal;
  n_best : Offer;
  n_savings : Decimal;
  n_others : list Offer
}.

Inductive reply_text : Type :=
| ReplyError (k : RateParseErrorKind)     (* the message of the parse error *)
| ReplySaved (rate : string).         (* "Saved your current rate as ..." *)

Inductive event : Type :=
| WriteFile (data : store)                          (* save_data *)
| Reply (r : reply_text)                            (* ctx.reply *)
| ChannelSend (channel uid : Z) (n : notification)  (* channel.send, with the mention *)
| UserSend (uid : Z) (n : notification).            (* fetch_user, user.send *)

Record world : Type := mkworld {
  file : option store;     (* rates.json, [None] when it does not exist *)
  log : list event         (* the calls made so far, oldest first *)
}.

(** What the collaborators answer. *)
Record env : Type := mkenv {
  response : result feed;                      (* the browser request *)
  is_text_channel : Z -> bool;                 (* bot.get_channel gives a TextChannel or Thread *)
  channel_send : Z -> Z -> notification -> result unit;
  user_send : Z -> notification -> result unit
}.

(** State and exceptions. *)
Definition M (A : Type) : Type := world -> result A * world.

Definition ret {A} (a : A) : M A := fun w => (Ok a, w).

Definition raise {A} (e : exn) : M A := fun w => (Raise e, w).

Definition mbind {A B} (m : M A) (k : A -> M B) : M B :=
  fun w =>
    match m w with
    | (Ok a, w') => k a w'
    | (Raise e, w') => (Raise e, w')
    end.

Definition lift {A} (r : result A) : M A := fun w => (r, w).

Definition emit (ev : event) : M unit :=
  fun w => (Ok tt, mkworld (file w) (log w ++ [ev])).

Notation "x <~ m ;; k" := (mbind m (fun x => k))
  (at level 61, m at next level, right associativity).

Definition load_data : M store :=
  fun w => (Ok (match file w with Some data => data | None => [] end), w).

Definition save_data (data : store) : M unit :=
  fun w =>
    let written := sort_keys data in
    (Ok tt, mkworld (Some written) (log w ++ [WriteFile written])).

(** ** Notification delivery *)

Definition send_notification (e : env) (user_id : Z) (info : user_info)
    (text : notification) : M unit :=
  let channel :=
    match get (notify_channel_id info) with
    | Some c => if c =? 0 then None else if is_text_channel e c then Some c else None
    | None => None
    end in
  let dm : M unit :=
    _ <~ emit (UserSend user_id text) ;;
    match user_send e user_id text with
    | Ok _ => ret tt
    | Raise Forbidden => ret tt
    | Raise other => raise other
    end in
  match channel with
  | Some c =>
      _ <~ emit (ChannelSend c user_id text) ;;
      match channel_send e c user_id text with
      | Ok _ => ret tt
      | Raise Forbidden => dm
      | Raise HTTPException => dm
      | Raise other => raise other
      end
  | None => dm
  end.

(** ** Commands *)

Record context : Type := mkctx {
  author_id : Z;
  channel_id : Z;
  guild_id : option Z
}.

Definition setrate (ctx : context) (rate_arg : string) : M unit :=
  match parse_user_rate rate_arg with
  | Raise (RateParseError k) => emit (Reply (ReplyError k))
  | Raise other => raise other
  | Ok d =>
      data <~ load_data ;;
      let uid := author_id ctx in
      let info :=
        match dict_get uid data with
        | Some i => i
        | None => empty_info
        end in
      let info :=
        {| rate := Some (format_f 5 d);
           notify_channel_id := Some (Some (channel_id ctx));
           notify_guild_id := Some (guild_id ctx);
           last_notified_offer_id := setdefault_none (last_notified_offer_id info);
           last_notified_rate := setdefault_none (last_notified_rate info) |} in
      _ <~ save_data (dict_set uid info data) ;;
      emit (Reply (ReplySaved (format_f 5 d)))
  end.

(** ** The daily task *)

(** [[o for o in offers if o["rate_dec"] < user_rate]] *)
Fixpoint cheaper_than (offers : list Offer) (user_rate : Decimal)
    : result (list Offer) :=
  match offers with
  | [] => Ok []
  | o :: rest =>
      b <- lt (Fin (rate_dec o)) user_rate ;;
      tl <- cheaper_than rest user_rate ;;
      Ok (if b then o :: tl else tl)
  end.

Definition opt_eqb (a : option string) (b : string) : bool :=
  match a with
  | Some s => String.eqb s b
  | None => false
  end.

(** The body of the loop of [daily_check] for one item of the store; the
    result is the record as the loop leaves it. *)
Definition process_user (e : env) (offers : list Offer) (uid : Z)
    (info : user_info) : M user_info :=
  match rate info with
  | None => ret info
  | Some r =>
      match of_string r with
      | Raise _ => ret info
      | Ok user_rate =>
          better <~ lift (cheaper_than offers user_rate) ;;
          match better with
          | [] => ret info
          | best :: _ =>
              let last_id := get (last_notified_offer_id info) in
              let last_rate := get (last_notified_rate info) in
              if opt_eqb last_id (id best) && opt_eqb last_rate (rate_str best)
              then ret info
              else
                savings <~ lift (money_savings_per_month user_rate
                                   (Fin (rate_dec best)) 750) ;;
                let top3 := firstn 3 better in
                let text := mknote user_rate best savings (tl top3) in
                _ <~ send_notification e uid info text ;;
                ret {| rate := rate info;
                       notify_channel_id := notify_channel_id info;
                       notify_guild_id := notify_guild_id info;
                       last_notified_offer_id := Some (Some (id best));
                       last_notified_rate := Some (Some (rate_str best)) |}
          end
      end
  end.

Fixpoint check_users (e : env) (offers : list Offer) (items : store) : M store :=
  match items with
  | [] => ret []
  | (uid, info) :: rest =>
      info' <~ process_user e offers uid info ;;
      rest' <~ check_users e offers rest ;;
      ret ((uid, info') :: rest')
  end.

Definition daily_check (e : env) : M unit :=
  data <~ load_data ;;
  match data with
  | [] => ret tt
  | _ =>
      match fetch_offers (response e) with
      | Raise _ => ret tt
      | Ok [] => ret tt
      | Ok offers =>
          data' <~ check_users e offers data ;;
          save_data data'
      end
  end.

(** ** setrate, with the answer of [ctx.reply]

    [ctx.reply] is a call to Discord and can raise like [channel.send].
    [setrate] above is the command when its reply is delivered; here the
    answer of the reply is a parameter, and an exception of the reply
    leaves the command.  The statements of [setrate] are kept apart from
    it: the file is written before the reply is attempted. *)

(** [await ctx.reply(...)] *)
Definition reply_with (answer : reply_text -> result unit) (r : reply_text)
  : M unit :=
  _ <~ emit (Reply r) ;;
  lift (answer r).

Definition setrate_replying (answer : reply_text -> result unit)
    (ctx : context) (rate_arg : string) : M unit :=
  match parse_user_rate rate_arg with
  | Raise (RateParseError k) => reply_with answer (ReplyError k)
  | Raise other => raise other
  | Ok d =>
      data <~ load_data ;;
      let uid := author_id ctx in
      let info :=
        match dict_get uid data with
        | Some i => i
        | None => empty_info
        end in
      let info :=
        {| rate := Some (format_f 5 d);
           notify_channel_id := Some (Some (channel_id ctx));
           notify_guild_id := Some (guild_id ctx);
           last_notified_offer_id := setdefault_none (last_notified_offer_id info);
           last_notified_rate := setdefault_none (last_notified_rate info) |} in
      _ <~ save_data (dict_set uid info data) ;;
      reply_with answer (ReplySaved (format_f 5 d))
  end.

(** ** The commands [rate] and [checknow] *)

(** Every path of these two commands ends with a single [ctx.reply]; the
    reply is the result of the command. *)
Inductive rate_reply : Type :=
| RatePrompt                   (* "You haven't set a rate yet. ..." *)
| RateStored (text : string).  (* "Your stored rate is ..." *)

Definition showrate (ctx : context) : M rate_reply :=
  data <~ load_data ;;
  match dict_get (author_id ctx) data with
  | None => ret RatePrompt
  | Some info =>
      match rate info with
      | None => ret RatePrompt
      | Some r => ret (RateStored r)
      end
  end.

Inductive check_reply : Type :=
| CheckPrompt                  (* no rate set yet *)
| CheckFailed (ex : exn)       (* "API check failed: ..." *)
| CheckNoOffers                (* "No offers returned from the API." *)
| CheckBest (best : Offer) (user_rate : Decimal) (cheaper : option string).
    (* the block of [best], then the rate of [better[0]] or "No offer is cheaper" *)

Definition checknow (e : env) (ctx : context) : M check_reply :=
  data <~ load_data ;;
  match dict_get (author_id ctx) data with
  | None => ret CheckPrompt
  | Some info =>
      match rate info with
      | None => ret CheckPrompt
      | Some r =>
          user_rate <~ lift (of_string r) ;;
          match fetch_offers (response e) with
          | Raise ex => ret (CheckFailed ex)
          | Ok [] => ret CheckNoOffers
          | Ok (best :: rest) =>
              better <~ lift (cheaper_than (best :: rest) user_rate) ;;
              ret (CheckBest best user_rate
                     (match better with
                      | b :: _ => Some (rate_str b)
                      | [] => None
                      end))
          end
      end
  end.

(** * Vocabulary of the properties *)

(** The coefficient [parse_user_rate] stores for the digits [frac]. *)
Definition rounded_rate (frac : list ascii) : N :=
  Z.to_N (div_half_up (Z.of_N (Text.digits_val frac))
                      (Z.of_nat (List.length frac) - 5)).

(** The coefficient of [d] written at the exponent [k]. *)
Definition scaled (k : Z) (d : fdec) : Z := signed d * 10 ^ (dexp d - k).

(** [a <= b] on finite Decimals. *)
Definition fle (a b : fdec) : Prop := fcompare a b <> Gt.

(** Numeric equality of two rates. *)
Definition rate_eqb (a b : fdec) : bool :=
  match fcompare a b with
  | Eq => true
  | _ => false
  end.

(** The order of the ranking. *)
Definition offer_le (a b : Offer) : Prop := fle (rate_dec a) (rate_dec b).

(** A canonical rate: five places, between 0 and 1 inclusive (1.00000 is
    what rounding half-up gives for 0.999995 and above); a negative sign
    only on zero. *)
Definition canonical (x : fdec) : bool :=
  (dexp x =? -5) && (dcoef x <=? 100000)%N
  && (negb (dneg x) || (dcoef x =? 0)%N).

(** The value the parser looks at: [rate], else [blendedRate]. *)
Definition rate_field (obj : raw_offer) : option scalar :=
  match get_scalar (r_rate obj) with
  | Some v => Some v
  | None => get_scalar (r_blendedRate obj)
  end.

(** An offer as [fetch_offers] builds it. *)
Definition well_formed (o : Offer) : Prop :=
  canonical (rate_dec o) = true /\ rate_str o = format_f 5 (Fin (rate_dec o)).

(** The de-duplication state of a record: the pair last reported. *)
Definition dedup_state (info : user_info) : option string * option string :=
  (get (last_notified_offer_id info), get (last_notified_rate info)).

(** The state Unnotified: both fields null or missing. *)
Definition unnotified (info : user_info) : Prop :=
  dedup_state info = (None, None).

(** The record after a notification for [best]. *)
Definition mark_notified (info : user_info) (best : Offer) : user_info :=
  {| rate := rate info;
     notify_channel_id := notify_channel_id info;
     notify_guild_id := notify_guild_id info;
     last_notified_offer_id := Some (Some (id best));
     last_notified_rate := Some (Some (rate_str best)) |}.

(** The stored pair is the pair of [best]. *)
Definition already_notified (info : user_info) (best : Offer) : bool :=
  opt_eqb (get (last_notified_offer_id info)) (id best)
  && opt_eqb (get (last_notified_rate info)) (rate_str best).

(** The transition of one record in a pass, as a function of the ranked
    offers. *)
Definition transition (offers : list Offer) (info : user_info) : user_info :=
  match rate info with
  | None => info
  | Some r =>
      match of_string r with
      | Ok (Fin u) =>
          match filter (fun o => rate_lt (rate_dec o) u) offers with
          | [] => info
          | best :: _ =>
              if already_notified info best then info
              else mark_notified info best
          end
      | _ => info
      end
  end.

(** The rate of a record, when it has one that [Decimal] reads, is
    canonical. *)
Definition rate_ok (info : user_info) : Prop :=
  match rate info with
  | None => True
  | Some r =>
      match of_string r with
      | Ok (Fin u) => canonical u = true
      | Ok _ => False
      | Raise _ => True
      end
  end.

(** A delivery failure the notifier absorbs: any HTTP error of the
    channel, and a refusal ([Forbidden]) of the direct message. *)
Definition delivery_contained (e : env) (uid : Z) : Prop :=
  (forall c n, channel_send e c uid n = Ok tt \/
               channel_send e c uid n = Raise Forbidden \/
               channel_send e c uid n = Raise HTTPException) /\
  (forall n, user_send e uid n = Ok tt \/ user_send e uid n = Raise Forbidden).

(** [ev] is a send of [n] to the user [uid]. *)
Definition notifies (uid : Z) (n : notification) (ev : event) : Prop :=
  match ev with
  | ChannelSend _ u m | UserSend u m => u = uid /\ m = n
  | _ => False
  end.

(** What the file maps a user id to. *)
Definition stored (w : world) (uid : Z) : option user_info :=
  dict_get uid (match file w with Some data => data | None => [] end).

(** The order of the keys in the file: [x] is not after [y]. *)
Definition key_le (x y : Z * user_info) : Prop :=
  String.ltb (key_of (fst y)) (key_of (fst x)) = false.

(** One record of the store against the record the pass leaves for it. *)
Definition kept_or_marked (offers : list Offer) (info info' : user_info) : Prop :=
  info' = info \/ exists best, In best offers /\ info' = mark_notified info best.

(** The offers built from the records that have a rate, in feed order. *)
Fixpoint kept_offers (raws : list raw_offer) : list Offer :=
  match raws with
  | [] => []
  | r :: rest =>
      match parse_offer_rate r with
      | Ok (Some d) => make_offer r d :: kept_offers rest
      | _ => kept_offers rest
      end
  end.

(** Every record of the file has a rate, and [Decimal] reads it as a
    canonical rate. *)
Definition store_canonical (w : world) : Prop :=
  forall uid info,
    stored w uid = Some info ->
    exists r u,
      rate info = Some r /\ of_string r = Ok (Fin u) /\ canonical u = true.

(** The channel the notifier writes to: the remembered id, when it is not
    falsy and [bot.get_channel] gives a text channel or thread for it. *)
Definition usable_channel (e : env) (info : user_info) : option Z :=
  match get (notify_channel_id info) with
  | Some c => if c =? 0 then None else if is_text_channel e c then Some c else None
  | None => None
  end.

(** A notification for [best] is due to the record: [best] is the first
    offer strictly below its rate and its pair is not the stored pair. *)
Definition due (offers : list Offer) (info : user_info) (best : Offer) : Prop :=
  exists r u rest,
    rate info = Some r /\ of_string r = Ok (Fin u) /\
    filter (fun o => rate_lt (rate_dec o) u) offers = best :: rest /\
    dedup_state info <> (Some (id best), Some (rate_str best)).

(** * Sample data *)

(** A feed record with an id and a [rate] string only. *)
Definition raw_rated (name rate_text : string) : raw_offer :=
  mkraw (Some (SStr name)) None None None None None None None
        (Some (SStr rate_text)) None None None.

(** A feed of four offers at the rates 0.15, 0.10, 0.10, 0.20. *)
Definition feed4 : feed :=
  mkfeed (Some [raw_rated "a" "0.15"; raw_rated "b" "0.10"])
         (Some [raw_rated "c" "0.10"; raw_rated "d" "0.20"]).

(** A feed record whose [rate] is the string "NaN". *)
Definition raw_nan : raw_offer :=
  mkraw (Some (SStr "7")) (Some "Acme Power"%string) None None None None
        None None (Some (SStr "NaN")) None None None.

(** A stored record in the state Notified("123", "0.09990"). *)
Definition notified_user : user_info :=
  {| rate := Some "0.12641"%string;
     notify_channel_id := Some (Some 7);
     notify_guild_id := Some (Some 9);
     last_notified_offer_id := Some (Some "123"%string);
     last_notified_rate := Some (Some "0.09990"%string) |}.

(** An environment with the given response where every send succeeds. *)
Definition quiet_env (r : result feed) : env :=
  mkenv r (fun _ => true) (fun _ _ _ => Ok tt) (fun _ _ => Ok tt).

(** A response with a single offer. *)
Definition one_offer (name rate_text : string) : result feed :=
  Ok (mkfeed (Some [raw_rated name rate_text]) None).

(** A stored record with the given rate and last reported pair. *)
Definition subscriber (rate_text : string) (last : option (string * string))
  : user_info :=
  {| rate := Some rate_text;
     notify_channel_id := Some (Some 7);
     notify_guild_id := Some (Some 9);
     last_notified_offer_id := Some (option_map fst last);
     last_notified_rate := Some (option_map snd last) |}.

(** Offer "A", now at 0.09000, and a user who was told of "A" at 0.10000. *)
Definition repriced_offer : Offer :=
  make_offer (raw_rated "A" "0.09") (mkdec false 9000 (-5)).

Definition told_of_A : user_info :=
  subscriber "0.12641" (Some ("A", "0.10000")%string).

(** A file with one unnotified subscriber, nothing sent yet. *)
Definition one_subscriber : world :=
  mkworld (Some [(42, subscriber "0.12641" None)]) [].

(** A file with two unnotified subscribers at 0.20000. *)
Definition two_users : world :=
  mkworld (Some [(1, subscriber "0.20000" None); (2, subscriber "0.20000" None)]) [].

(** The channel refuses every message; the direct message to user 1 fails
    with [dm1], the one to any other user is refused. *)
Definition failing_env (dm1 : exn) : env :=
  mkenv (one_offer "B" "0.10")
        (fun _ => true)
        (fun _ _ _ => Raise Forbidden)
        (fun uid _ => if uid =? 1 then Raise dm1 else Raise Forbidden).

(** Offer "B" at 0.10000, as the feed [one_offer "B" "0.10"] gives it. *)
Definition offer_B : Offer :=
  make_offer (raw_rated "B" "0.10") (mkdec false 10000 (-5)).

(** The message to user 1 is delivered in the channel; the channel refuses
    the message to any other user, and the direct message to that user
    fails with an HTTP error other than [Forbidden]. *)
Definition second_user_failing_env : env :=
  mkenv (one_offer "B" "0.10")
        (fun _ => true)
        (fun _ uid _ => if uid =? 1 then Ok tt else Raise Forbidden)
        (fun uid _ => if uid =? 1 then Ok tt else Raise HTTPException).

(** A file with user 1 unnotified and user 2 already told of offer "B" at
    0.10000, both at rate 0.20000. *)
Definition mixed_users : world :=
  mkworld (Some [(1, subscriber "0.20000" None);
                 (2, subscriber "0.20000" (Some ("B", "0.10000")%string))]) [].

(** * Properties *)

(** ** Text *)

Section TextFacts.
Import Text.

Lemma lstrip_fix (l : list ascii) :
  match l with
  | c :: _ => isspace c = false
  | [] => True
  end -> lstrip l = l.
Proof.
  destruct l as [|c r]; simpl; intros H; [reflexivity | now rewrite H].
Qed.

Lemma lstrip_head (l : list ascii) :
  match lstrip l with
  | c :: _ => isspace c = false
  | [] => True
  end.
Proof.
  induction l as [|c r IH]; simpl; [exact I |].
  destruct (isspace c) eqn:E; [exact IH | exact E].
Qed.

Lemma lstrip_idem (l : list ascii) : lstrip (lstrip l) = lstrip l.
Proof. apply lstrip_fix, lstrip_head. Qed.

(** The result of [strip] does not end with white space. *)
Lemma strip_last (l a : list ascii) (c : ascii) :
  strip l = a ++ [c] -> isspace c = false.
Proof.
  unfold strip. intros H.
  apply (f_equal (@rev ascii)) in H.
  rewrite rev_involutive, rev_app_distr in H. simpl in H.
  pose proof (lstrip_head (rev (lstrip l))) as Hh.
  now rewrite H in Hh.
Qed.

Lemma strip_fix (l : list ascii) :
  lstrip l = l -> lstrip (rev l) = rev l -> strip l = l.
Proof.
  unfold strip. intros -> ->. apply rev_involutive.
Qed.

Lemma isdigit_not_space (c : ascii) : isdigit c = true -> isspace c = false.
Proof.
  unfold isdigit, isspace. intros H.
  apply andb_true_iff in H as [H1 H2].
  apply Z.leb_le in H1. apply Z.leb_le in H2.
  apply orb_false_iff; split; apply andb_false_iff.
  - right. apply Z.leb_gt. lia.
  - right. apply Z.leb_gt. lia.
Qed.

Lemma span_digits_all (ds t : list ascii) :
  forallb isdigit ds = true ->
  match t with
  | c :: _ => isdigit c = false
  | [] => True
  end ->
  span_digits (ds ++ t) = (ds, t).
Proof.
  intros Hd Ht. induction ds as [|d ds IH]; cbn [app span_digits forallb] in *.
  - destruct t as [|c r]; [reflexivity |]. cbn [span_digits]. now rewrite Ht.
  - apply andb_true_iff in Hd as [H1 H2]. now rewrite H1, IH.
Qed.

Lemma span_digits_spec (l ds t : list ascii) :
  span_digits l = (ds, t) ->
  l = ds ++ t /\ forallb isdigit ds = true /\
  match t with
  | c :: _ => isdigit c = false
  | [] => True
  end.
Proof.
  revert ds t. induction l as [|c r IH]; simpl; intros ds t H.
  - now inversion H.
  - destruct (isdigit c) eqn:E.
    + destruct (span_digits r) as [d' t'] eqn:S. inversion H; subst.
      destruct (IH _ _ eq_refl) as (-> & Hd & Ht).
      repeat split; [cbn [forallb]; now rewrite E, Hd | exact Ht].
    + inversion H; subst. repeat split. exact E.
Qed.

Lemma digit_val_le (c : ascii) : isdigit c = true -> (digit_val c <= 9)%N.
Proof.
  unfold isdigit, digit_val, code. intros H.
  apply andb_true_iff in H as [H1 H2].
  apply Z.leb_le in H1. apply Z.leb_le in H2. lia.
Qed.

Lemma fold_digits_bound (ds : list ascii) (acc : N) :
  forallb isdigit ds = true ->
  Z.of_N (fold_left (fun a c => (a * 10 + digit_val c)%N) ds acc) + 1
  <= (Z.of_N acc + 1) * 10 ^ Z.of_nat (List.length ds).
Proof.
  revert acc. induction ds as [|d ds IH]; intros acc H.
  - simpl. lia.
  - simpl in H. apply andb_true_iff in H as [H1 H2].
    cbn [fold_left List.length]. rewrite Nat2Z.inj_succ, Z.pow_succ_r by lia.
    specialize (IH (acc * 10 + digit_val d)%N H2).
    pose proof (digit_val_le d H1) as Hd.
    assert (0 < 10 ^ Z.of_nat (List.length ds)) by (apply Z.pow_pos_nonneg; lia).
    nia.
Qed.

(** A string of [n] digits denotes a number below [10^n]. *)
Lemma digits_val_bound (ds : list ascii) :
  forallb isdigit ds = true ->
  Z.of_N (digits_val ds) < 10 ^ Z.of_nat (List.length ds).
Proof.
  intros H. pose proof (fold_digits_bound ds 0%N H) as B.
  unfold digits_val. change (Z.of_N 0) with 0 in B.
  rewrite Z.add_0_l, Z.mul_1_l in B. lia.
Qed.

Lemma digits_val_zero_cons (ds : list ascii) :
  digits_val ("0"%char :: ds) = digits_val ds.
Proof. reflexivity. Qed.

End TextFacts.

(** ** Rounding half-up *)

Section Rounding.

Lemma pow10_pos (k : Z) : 0 <= k -> 0 < 10 ^ k.
Proof. intros. apply Z.pow_pos_nonneg; lia. Qed.

(** [div_half_up n k] is the integer nearest to [n / 10^k], a tie going
    up: [r - 1/2 <= n / 10^k < r + 1/2]. *)
Lemma div_half_up_nearest (n k : Z) :
  0 <= k ->
  let r := div_half_up n k in
  2 * 10 ^ k * r <= 2 * n + 10 ^ k < 2 * 10 ^ k * r + 2 * 10 ^ k.
Proof.
  intros Hk r. subst r. unfold div_half_up.
  pose proof (pow10_pos k Hk) as Hp.
  pose proof (Z.div_mod n (10 ^ k)) as Hdm.
  pose proof (Z.mod_pos_bound n (10 ^ k) Hp) as Hm.
  destruct (10 ^ k <=? 2 * (n mod 10 ^ k)) eqn:E;
    [apply Z.leb_le in E | apply Z.leb_gt in E]; nia.
Qed.

(** That integer is unique. *)
Lemma nearest_unique (n p r r' : Z) :
  0 < p ->
  2 * p * r <= 2 * n + p < 2 * p * r + 2 * p ->
  2 * p * r' <= 2 * n + p < 2 * p * r' + 2 * p ->
  r = r'.
Proof. intros. nia. Qed.

Lemma div_half_up_nonneg (n k : Z) : 0 <= k -> 0 <= n -> 0 <= div_half_up n k.
Proof.
  intros Hk Hn. pose proof (div_half_up_nearest n k Hk) as H. cbv zeta in H.
  pose proof (pow10_pos k Hk). nia.
Qed.

Lemma div_half_up_le (n k b : Z) :
  0 <= k -> 0 <= b -> n < b * 10 ^ k -> div_half_up n k <= b.
Proof.
  intros Hk Hb Hn. pose proof (div_half_up_nearest n k Hk) as H. cbv zeta in H.
  pose proof (pow10_pos k Hk). nia.
Qed.

Lemma div_half_up_0 (n : Z) : div_half_up n 0 = n.
Proof.
  unfold div_half_up. change (10 ^ 0) with 1.
  rewrite Z.div_1_r, Z.mod_1_r. simpl. lia.
Qed.

End Rounding.

(** ** The strict rate parser *)

Section UserRate.
Import Text.

Lemma filter_all {A} (p : A -> bool) (l : list A) :
  forallb p l = true -> filter p l = l.
Proof.
  induction l as [|a l IH]; simpl; intros H; [reflexivity |].
  apply andb_true_iff in H as [H1 H2]. now rewrite H1, IH.
Qed.

Lemma isdigit_not_underscore (c : ascii) :
  isdigit c = true -> negb (is_underscore c) = true.
Proof.
  intros H. unfold is_underscore.
  destruct (Ascii.eqb c "_") eqn:E; [| reflexivity].
  apply Ascii.eqb_eq in E. subst c. discriminate H.
Qed.

Lemma forallb_impl {A} (p q : A -> bool) (l : list A) :
  (forall a, p a = true -> q a = true) ->
  forallb p l = true -> forallb q l = true.
Proof.
  intros Hpq. induction l as [|a l IH]; simpl; intros H; [reflexivity |].
  apply andb_true_iff in H as [H1 H2]. now rewrite (Hpq a H1), IH.
Qed.

(** What the format rule accepts. *)
Lemma RATE_INPUT_RE_match_spec (s frac : list ascii) :
  RATE_INPUT_RE_match s = Some frac ->
  frac <> [] /\ forallb isdigit frac = true /\
  (s = "0"%char :: "."%char :: frac \/
   s = ("0"%char :: "."%char :: frac) ++ ["010"%char]).
Proof.
  unfold RATE_INPUT_RE_match. intros H.
  destruct s as [|c0 s]; [discriminate |].
  destruct (Ascii.eqb c0 "0") eqn:E0;
    [apply Ascii.eqb_eq in E0; subst c0
    | destruct c0 as [[] [] [] [] [] [] [] []]; try discriminate H; discriminate E0].
  destruct s as [|c1 s]; [discriminate |].
  destruct (Ascii.eqb c1 ".") eqn:E1;
    [apply Ascii.eqb_eq in E1; subst c1
    | destruct c1 as [[] [] [] [] [] [] [] []]; try discriminate H; discriminate E1].
  destruct (span_digits s) as [ds t] eqn:S.
  apply span_digits_spec in S as (-> & Hd & Ht).
  destruct ds as [|d ds]; [discriminate |].
  destruct t as [|c t].
  - inversion H; subst. rewrite app_nil_r. repeat split; [discriminate | exact Hd | now left].
  - destruct t; [| destruct c as [[] [] [] [] [] [] [] []]; discriminate H].
    destruct (Ascii.eqb c "010") eqn:En;
      [apply Ascii.eqb_eq in En; subst c
      | destruct c as [[] [] [] [] [] [] [] []]; try discriminate H; discriminate En].
    inversion H; subst. repeat split; [discriminate | exact Hd | now right].
Qed.

(** After [strip] there is no final newline for [$] to skip. *)
Lemma RATE_INPUT_RE_match_strip (raw frac : list ascii) :
  RATE_INPUT_RE_match (strip raw) = Some frac ->
  frac <> [] /\ forallb isdigit frac = true /\
  strip raw = "0"%char :: "."%char :: frac.
Proof.
  intros H. apply RATE_INPUT_RE_match_spec in H as (Hne & Hd & [Hs | Hs]).
  - auto.
  - apply strip_last in Hs. discriminate Hs.
Qed.

Lemma rate_text_stripped (frac : list ascii) :
  frac <> [] -> forallb isdigit frac = true ->
  strip ("0"%char :: "."%char :: frac) = "0"%char :: "."%char :: frac.
Proof.
  intros Hne Hd. apply strip_fix; [reflexivity |].
  apply lstrip_fix. cbn [rev].
  destruct (rev frac) as [|c r] eqn:R.
  - apply (f_equal (@rev ascii)) in R. rewrite rev_involutive in R. now subst.
  - cbn [app]. apply isdigit_not_space.
    rewrite forallb_forall in Hd. apply Hd, in_rev. rewrite R. now left.
Qed.

Lemma rate_text_newline_stripped (frac : list ascii) :
  frac <> [] -> forallb isdigit frac = true ->
  strip (("0"%char :: "."%char :: frac) ++ ["010"%char])
  = "0"%char :: "."%char :: frac.
Proof.
  intros Hne Hd. pose proof (rate_text_stripped frac Hne Hd) as Hs.
  unfold strip in *. cbn [app lstrip] in *.
  change (isspace "0") with false in *. cbv iota in *.
  change (rev ("0"%char :: "."%char :: frac ++ ["010"%char]))
    with (rev (("0"%char :: "."%char :: frac) ++ ["010"%char])).
  rewrite rev_app_distr. cbn [rev app lstrip].
  change (isspace "010") with true. cbv iota. exact Hs.
Qed.

Lemma RATE_INPUT_RE_match_digits (frac : list ascii) :
  frac <> [] -> forallb isdigit frac = true ->
  RATE_INPUT_RE_match ("0"%char :: "."%char :: frac) = Some frac.
Proof.
  intros Hne Hd. unfold RATE_INPUT_RE_match.
  pose proof (span_digits_all frac [] Hd I) as S. rewrite app_nil_r in S.
  rewrite S. destruct frac; [contradiction | reflexivity].
Qed.

(** [Decimal(s)] for a text the format rule accepts. *)
Lemma of_chars_rate (s frac : list ascii) :
  strip s = "0"%char :: "."%char :: frac ->
  frac <> [] -> forallb isdigit frac = true ->
  of_chars s
  = Ok (Fin (mkdec false (digits_val frac) (- Z.of_nat (List.length frac)))).
Proof.
  intros Hs Hne Hd. unfold of_chars.
  rewrite Hs.
  rewrite filter_all
    by (cbn [forallb]; apply (forallb_impl _ _ _ isdigit_not_underscore Hd)).
  cbv beta iota.
  change (parse_finite false ("0"%char :: "."%char :: frac))
    with (let (fp, r2) := span_digits frac in
          match ["0"%char] ++ fp with
          | [] => None
          | ds =>
              let e :=
                match r2 with
                | [] => Some 0
                | c :: r => if is_e c then parse_exponent r else None
                end in
              match e with
              | Some e => Some (mkdec false (digits_val ds) (e - Z.of_nat (List.length fp)))
              | None => None
              end
          end).
  pose proof (span_digits_all frac [] Hd I) as S. rewrite app_nil_r in S.
  rewrite S. cbn [app]. cbv zeta iota beta.
  now rewrite digits_val_zero_cons.
Qed.

End UserRate.

Section UserRateValue.
Import Text.

(** A value [c * 10^-n] with [c < 10^n] is neither negative nor at least 1. *)
Lemma fraction_in_range (c : N) (n : Z) :
  0 <= n -> Z.of_N c < 10 ^ n ->
  lt (Fin (mkdec false c (- n))) (Fin (of_int 0)) = Ok false /\
  ge (Fin (mkdec false c (- n))) (Fin (of_int 1)) = Ok false.
Proof.
  intros Hn Hc.
  assert (F0 : fcompare (mkdec false c (- n)) (of_int 0) = (Z.of_N c ?= 0)).
  { unfold fcompare, signed, of_int. cbn [dneg dcoef dexp].
    change (0 <? 0) with false. change (Z.abs_N 0) with 0%N. cbv iota.
    rewrite Z.min_l by lia. replace (- n - - n) with 0 by lia.
    change (Z.of_N 0) with 0. now rewrite Z.mul_1_r, Z.mul_0_l. }
  assert (F1 : fcompare (mkdec false c (- n)) (of_int 1) = (Z.of_N c ?= 10 ^ n)).
  { unfold fcompare, signed, of_int. cbn [dneg dcoef dexp].
    change (1 <? 0) with false. change (Z.abs_N 1) with 1%N. cbv iota.
    rewrite Z.min_l by lia. replace (- n - - n) with 0 by lia.
    replace (0 - - n) with n by lia.
    change (Z.of_N 1) with 1. now rewrite Z.mul_1_r, Z.mul_1_l. }
  unfold lt, ge, compare. rewrite F0, F1. split.
  - destruct (Z.of_N c ?= 0) eqn:E; try reflexivity.
    rewrite Z.compare_lt_iff in E. exfalso. lia.
  - apply Z.compare_lt_iff in Hc. now rewrite Hc.
Qed.

(** Quantizing such a value to five places cannot fail. *)
Lemma quantize_fraction (c : N) (n : Z) :
  5 <= n -> Z.of_N c < 10 ^ n ->
  quantize_half_up (Fin (mkdec false c (- n))) Q5
  = Ok (Fin (mkdec false (Z.to_N (div_half_up (Z.of_N c) (n - 5))) (-5))).
Proof.
  intros Hn Hc. unfold quantize_half_up, Q5. cbn [dcoef dneg dexp].
  destruct (N.eqb_spec c 0) as [-> | Hnz].
  - change (Z.of_N 0) with 0. unfold div_half_up.
    pose proof (pow10_pos (n - 5) ltac:(lia)) as Hp.
    rewrite Z.div_0_l, Z.mod_0_l by lia.
    destruct (10 ^ (n - 5) <=? 2 * 0) eqn:E; [apply Z.leb_le in E; lia | reflexivity].
  - assert (Hbig : 10 ^ n <= 10 ^ (prec + -5 - - n)).
    { unfold prec. apply Z.pow_le_mono_r; lia. }
    destruct (10 ^ (prec + -5 - - n) <=? Z.of_N c) eqn:E1;
      [apply Z.leb_le in E1; lia |].
    assert (Hr : rescale_half_up (mkdec false c (- n)) (-5)
                 = mkdec false (Z.to_N (div_half_up (Z.of_N c) (n - 5))) (-5)).
    { unfold rescale_half_up. cbn [dcoef dneg dexp].
      destruct (-5 <=? - n) eqn:E2.
      - apply Z.leb_le in E2. assert (n = 5) by lia. subst n.
        change (-5 - -5) with 0. change (5 - 5) with 0.
        rewrite div_half_up_0. change (10 ^ 0) with 1. now rewrite Z.mul_1_r.
      - replace (-5 - - n) with (n - 5) by lia. reflexivity. }
    rewrite Hr. cbn [dcoef].
    assert (Hle : div_half_up (Z.of_N c) (n - 5) <= 10 ^ 5).
    { apply div_half_up_le; try lia.
      rewrite <- Z.pow_add_r by lia. now replace (5 + (n - 5)) with n by lia. }
    pose proof (div_half_up_nonneg (Z.of_N c) (n - 5) ltac:(lia) ltac:(lia)).
    rewrite Z2N.id by lia.
    destruct (10 ^ prec <=? div_half_up (Z.of_N c) (n - 5)) eqn:E3; [| reflexivity].
    apply Z.leb_le in E3. unfold prec in E3.
    assert (10 ^ 5 < 10 ^ 28) by (apply Z.pow_lt_mono_r; lia). lia.
Qed.

(** [parse_user_rate] as a decision list: the range tests never fire. *)
Lemma parse_user_rate_eq (raw : string) :
  parse_user_rate raw =
  let s := strip (list_ascii_of_string raw) in
  if startswith_minus s then Raise (RateParseError NegativeRate)
  else
    match RATE_INPUT_RE_match s with
    | None => Raise (RateParseError BadFormat)
    | Some frac =>
        if (List.length frac <? 5)%nat then Raise (RateParseError TooFewDigits)
        else Ok (Fin (mkdec false (rounded_rate frac) (-5)))
    end.
Proof.
  unfold parse_user_rate. cbv zeta.
  destruct (startswith_minus _); [reflexivity |].
  destruct (RATE_INPUT_RE_match _) as [frac|] eqn:M; [| reflexivity].
  destruct (List.length frac <? 5)%nat eqn:L; [reflexivity |].
  apply Nat.ltb_ge in L.
  apply RATE_INPUT_RE_match_strip in M as (Hne & Hd & ->).
  rewrite (of_chars_rate _ frac (rate_text_stripped frac Hne Hd) Hne Hd).
  pose proof (digits_val_bound frac Hd) as B.
  destruct (fraction_in_range (digits_val frac) (Z.of_nat (List.length frac))
              ltac:(lia) B) as [H0 H1].
  rewrite H0. cbn [bind]. rewrite H1. cbn [bind].
  apply quantize_fraction; [lia | exact B].
Qed.

End UserRateValue.

(** ** Claims on the strict rate parser *)

Section UserRateClaims.
Import Text.

(** The valid inputs of the strict parser: the result has exponent [-5],
    its coefficient is the integer nearest to [value * 10^5] (a tie going
    up), and lies between [0] and [10^5] inclusive. *)
Lemma parse_user_rate_rounds (raw : string) (frac : list ascii) :
  strip (list_ascii_of_string raw) = "0"%char :: "."%char :: frac ->
  forallb isdigit frac = true ->
  (5 <= List.length frac)%nat ->
  exists r : Z,
    parse_user_rate raw = Ok (Fin (mkdec false (Z.to_N r) (-5))) /\
    0 <= r <= 10 ^ 5 /\
    let k := Z.of_nat (List.length frac) - 5 in
    2 * 10 ^ k * r <= 2 * Z.of_N (digits_val frac) + 10 ^ k
                   < 2 * 10 ^ k * r + 2 * 10 ^ k.
Proof.
  intros Hs Hd Hn.
  assert (Hne : frac <> []) by (destruct frac; [simpl in Hn; lia | discriminate]).
  exists (div_half_up (Z.of_N (digits_val frac)) (Z.of_nat (List.length frac) - 5)).
  pose proof (digits_val_bound frac Hd) as B.
  split; [| split].
  - rewrite parse_user_rate_eq. cbv zeta. rewrite Hs.
    rewrite (RATE_INPUT_RE_match_digits frac Hne Hd).
    cbn [startswith_minus].
    apply Nat.ltb_ge in Hn. now rewrite Hn.
  - split; [apply div_half_up_nonneg; lia |].
    apply div_half_up_le; try lia.
    rewrite <- Z.pow_add_r by lia.
    now replace (5 + (Z.of_nat (List.length frac) - 5))
      with (Z.of_nat (List.length frac)) by lia.
  - apply div_half_up_nearest. lia.
Qed.

Example parse_user_rate_0_123455 :
  parse_user_rate "0.123455" = Ok (Fin (mkdec false 12346 (-5))).
Proof. reflexivity. Qed.

(** C5: the input "0.999995" is valid (six digits after [0.], value below
    1), yet the strict parser returns 1.00000 for it, which is not below
    1: the range test is made before the rounding. *)
Theorem parse_user_rate_rounds_up_to_one :
  RATE_INPUT_RE_match (list_ascii_of_string "0.999995")
  = Some (list_ascii_of_string "999995") /\
  of_string "0.999995" = Ok (Fin (mkdec false 999995 (-6))) /\
  ge (Fin (mkdec false 999995 (-6))) (Fin (of_int 1)) = Ok false /\
  parse_user_rate "0.999995" = Ok (Fin (mkdec false 100000 (-5))) /\
  ge (Fin (mkdec false 100000 (-5))) (Fin (of_int 1)) = Ok true /\
  format_f 5 (Fin (mkdec false 100000 (-5))) = "1.00000"%string.
Proof. repeat split. Qed.

(** C6 fails as stated: "1.00000" is not reported as out of range, the
    format rule rejects it first. *)
Lemma parse_user_rate_one_is_bad_format :
  parse_user_rate "1.00000" = Raise (RateParseError BadFormat) /\
  parse_user_rate "1.00000" <> Raise (RateParseError OutOfRange).
Proof. split; [reflexivity | discriminate]. Qed.

(** C6, amended: "0.1" fails with TooFewDigits, "-0.12345" with
    NegativeRate, "1.00000" and "abc" with BadFormat; the rules apply in
    the order negative, format, digit count, and a text that passes these
    three is accepted. *)
Theorem parse_user_rate_rejections :
  parse_user_rate "0.1" = Raise (RateParseError TooFewDigits) /\
  parse_user_rate "-0.12345" = Raise (RateParseError NegativeRate) /\
  parse_user_rate "1.00000" = Raise (RateParseError BadFormat) /\
  parse_user_rate "abc" = Raise (RateParseError BadFormat) /\
  forall raw : string,
    let s := strip (list_ascii_of_string raw) in
    (startswith_minus s = true ->
     parse_user_rate raw = Raise (RateParseError NegativeRate)) /\
    (startswith_minus s = false -> RATE_INPUT_RE_match s = None ->
     parse_user_rate raw = Raise (RateParseError BadFormat)) /\
    (forall frac, startswith_minus s = false ->
                  RATE_INPUT_RE_match s = Some frac ->
                  (List.length frac < 5)%nat ->
     parse_user_rate raw = Raise (RateParseError TooFewDigits)) /\
    (forall frac, startswith_minus s = false ->
                  RATE_INPUT_RE_match s = Some frac ->
                  (5 <= List.length frac)%nat ->
     exists d, parse_user_rate raw = Ok (Fin d)).
Proof.
  repeat (split; [reflexivity |]).
  intros raw s. subst s. rewrite parse_user_rate_eq. cbv zeta.
  repeat split.
  - now intros ->.
  - now intros -> ->.
  - intros frac -> -> L. apply Nat.ltb_lt in L. now rewrite L.
  - intros frac -> -> L. apply Nat.ltb_ge in L. rewrite L. eauto.
Qed.

Lemma parse_user_rate_rejections_witness :
  parse_user_rate "-abc" = Raise (RateParseError NegativeRate) /\
  parse_user_rate "0.1x" = Raise (RateParseError BadFormat) /\
  parse_user_rate "0.1234" = Raise (RateParseError TooFewDigits) /\
  exists d, parse_user_rate "0.12345" = Ok (Fin d).
Proof.
  pose proof parse_user_rate_rejections as (_ & _ & _ & _ & H).
  split; [| split; [| split]].
  - exact (proj1 (H "-abc"%string) eq_refl).
  - exact (proj1 (proj2 (H "0.1x"%string)) eq_refl eq_refl).
  - apply (proj1 (proj2 (proj2 (H "0.1234"%string)))
             (list_ascii_of_string "1234") eq_refl eq_refl).
    simpl. lia.
  - apply (proj2 (proj2 (proj2 (H "0.12345"%string)))
             (list_ascii_of_string "12345") eq_refl eq_refl).
    simpl. lia.
Defined.

(** C10: a text that passes the format rule denotes a Decimal that is
    neither negative nor at least 1, so the two range tests after the
    match never fire: no input is reported as OutOfRange, NegativeRate is
    reported only for a leading dash, and "1.00000" is rejected by the
    format rule. *)
Theorem parse_user_rate_range_tests_unreachable :
  (forall s frac : list ascii,
      RATE_INPUT_RE_match s = Some frac ->
      exists d,
        of_chars s = Ok (Fin d) /\
        lt (Fin d) (Fin (of_int 0)) = Ok false /\
        ge (Fin d) (Fin (of_int 1)) = Ok false) /\
  (forall raw : string,
      parse_user_rate raw <> Raise (RateParseError OutOfRange)) /\
  (forall raw : string,
      parse_user_rate raw = Raise (RateParseError NegativeRate) ->
      startswith_minus (strip (list_ascii_of_string raw)) = true) /\
  parse_user_rate "1.00000" = Raise (RateParseError BadFormat).
Proof.
  split; [| split; [| split]].
  - intros s frac M.
    apply RATE_INPUT_RE_match_spec in M as (Hne & Hd & [-> | ->]).
    + eexists. split; [apply (of_chars_rate _ frac (rate_text_stripped frac Hne Hd) Hne Hd) |].
      apply fraction_in_range; [lia | now apply digits_val_bound].
    + eexists. split; [apply (of_chars_rate _ frac (rate_text_newline_stripped frac Hne Hd) Hne Hd) |].
      apply fraction_in_range; [lia | now apply digits_val_bound].
  - intros raw. rewrite parse_user_rate_eq. cbv zeta.
    destruct (startswith_minus _); [discriminate |].
    destruct (RATE_INPUT_RE_match _); [| discriminate].
    destruct (_ <? _)%nat; discriminate.
  - intros raw. rewrite parse_user_rate_eq. cbv zeta.
    destruct (startswith_minus _); [reflexivity |].
    destruct (RATE_INPUT_RE_match _); [| discriminate].
    destruct (_ <? _)%nat; discriminate.
  - reflexivity.
Qed.

Lemma parse_user_rate_range_tests_unreachable_witness :
  (exists d,
      of_chars (list_ascii_of_string "0.99999") = Ok (Fin d) /\
      lt (Fin d) (Fin (of_int 0)) = Ok false /\
      ge (Fin d) (Fin (of_int 1)) = Ok false) /\
  startswith_minus (strip (list_ascii_of_string "-0.5")) = true.
Proof.
  split.
  - exact (proj1 parse_user_rate_range_tests_unreachable
             (list_ascii_of_string "0.99999") (list_ascii_of_string "99999")
             eq_refl).
  - exact (proj1 (proj2 (proj2 parse_user_rate_range_tests_unreachable))
             "-0.5"%string eq_refl).
Defined.

End UserRateClaims.

(** ** The order of finite Decimals *)

Section DecimalOrder.

Lemma mul_compare_pos (x y p : Z) : 0 < p -> (x * p ?= y * p) = (x ?= y).
Proof.
  intros Hp.
  destruct (Z.compare_spec x y) as [E | L | G].
  - subst. apply Z.compare_refl.
  - apply Z.compare_lt_iff. nia.
  - apply Z.compare_gt_iff. nia.
Qed.

(** Two Decimals compare as their coefficients at any common exponent
    that is not above their own. *)
Lemma fcompare_at (k : Z) (a b : fdec) :
  k <= dexp a -> k <= dexp b ->
  fcompare a b = (scaled k a ?= scaled k b).
Proof.
  intros Ha Hb. unfold fcompare, scaled.
  set (m := Z.min (dexp a) (dexp b)).
  assert (Hm : k <= m) by (subst m; lia).
  assert (Hma : m <= dexp a) by (subst m; lia).
  assert (Hmb : m <= dexp b) by (subst m; lia).
  replace (dexp a - k) with ((dexp a - m) + (m - k)) by lia.
  replace (dexp b - k) with ((dexp b - m) + (m - k)) by lia.
  rewrite !Z.pow_add_r by lia. rewrite !Z.mul_assoc.
  symmetry. apply mul_compare_pos. apply pow10_pos. lia.
Qed.

Lemma fcompare_antisym (a b : fdec) : fcompare b a = CompOpp (fcompare a b).
Proof.
  unfold fcompare. rewrite (Z.min_comm (dexp b) (dexp a)).
  apply Z.compare_antisym.
Qed.

Lemma fle_trans (a b c : fdec) : fle a b -> fle b c -> fle a c.
Proof.
  unfold fle.
  set (k := Z.min (dexp a) (Z.min (dexp b) (dexp c))).
  rewrite (fcompare_at k a b), (fcompare_at k b c), (fcompare_at k a c)
    by (subst k; lia).
  rewrite !Z.compare_gt_iff. lia.
Qed.

Lemma rate_lt_false_fle (a b : fdec) : rate_lt a b = false -> fle b a.
Proof.
  unfold rate_lt, fle. rewrite (fcompare_antisym a b).
  destruct (fcompare a b); simpl; congruence.
Qed.

Lemma rate_lt_true_fle (a b : fdec) : rate_lt a b = true -> fle a b.
Proof.
  unfold rate_lt, fle. destruct (fcompare a b); congruence.
Qed.

Lemma rate_lt_not_eq (y x r : fdec) :
  rate_lt y x = true -> rate_eqb x r = true -> rate_eqb y r = false.
Proof.
  unfold rate_lt, rate_eqb.
  set (k := Z.min (dexp y) (Z.min (dexp x) (dexp r))).
  rewrite (fcompare_at k y x), (fcompare_at k x r), (fcompare_at k y r)
    by (subst k; lia).
  destruct (Z.compare_spec (scaled k y) (scaled k x)); try discriminate.
  destruct (Z.compare_spec (scaled k x) (scaled k r)); try discriminate.
  destruct (Z.compare_spec (scaled k y) (scaled k r)); try reflexivity.
  lia.
Qed.

End DecimalOrder.

(** ** Ranking *)

Section Ranking.

Lemma offer_le_trans : Relations_1.Transitive offer_le.
Proof. intros a b c. apply fle_trans. Qed.

Lemma insert_offer_perm (x : Offer) (l : list Offer) :
  Permutation (x :: l) (insert_offer x l).
Proof.
  induction l as [|y l IH]; simpl; [reflexivity |].
  destruct (rate_lt _ _); [| reflexivity].
  rewrite perm_swap. now constructor.
Qed.

Lemma insert_offer_hdrel (a x : Offer) (l : list Offer) :
  offer_le a x -> HdRel offer_le a l -> HdRel offer_le a (insert_offer x l).
Proof.
  intros Hax Hl. destruct l as [|y l]; simpl; [now constructor |].
  destruct (rate_lt _ _); constructor; [now inversion Hl | exact Hax].
Qed.

Lemma insert_offer_sorted (x : Offer) (l : list Offer) :
  Sorted offer_le l -> Sorted offer_le (insert_offer x l).
Proof.
  induction 1 as [|y l Hs IH Hh]; simpl; [repeat constructor |].
  destruct (rate_lt (rate_dec y) (rate_dec x)) eqn:E.
  - constructor; [exact IH |].
    apply insert_offer_hdrel; [now apply rate_lt_true_fle | exact Hh].
  - constructor; [now constructor |].
    constructor. now apply rate_lt_false_fle.
Qed.

Lemma sort_by_rate_sorted (l : list Offer) : Sorted offer_le (sort_by_rate l).
Proof.
  induction l as [|x l IH]; simpl; [constructor |].
  now apply insert_offer_sorted.
Qed.

Lemma sort_by_rate_perm (l : list Offer) : Permutation l (sort_by_rate l).
Proof.
  induction l as [|x l IH]; simpl; [reflexivity |].
  rewrite <- insert_offer_perm. now constructor.
Qed.

(** Inserting leaves the offers of any one rate in their order, the new
    one first. *)
Lemma filter_insert_offer (r : fdec) (x : Offer) (l : list Offer) :
  filter (fun o => rate_eqb (rate_dec o) r) (insert_offer x l)
  = filter (fun o => rate_eqb (rate_dec o) r) (x :: l).
Proof.
  induction l as [|y l IH]; [reflexivity |].
  cbn [insert_offer].
  destruct (rate_lt (rate_dec y) (rate_dec x)) eqn:E; [| reflexivity].
  cbn [filter] in *. rewrite IH.
  destruct (rate_eqb (rate_dec x) r) eqn:Ex; [| reflexivity].
  now rewrite (rate_lt_not_eq _ _ _ E Ex).
Qed.

Lemma sort_by_rate_stable (r : fdec) (l : list Offer) :
  filter (fun o => rate_eqb (rate_dec o) r) (sort_by_rate l)
  = filter (fun o => rate_eqb (rate_dec o) r) l.
Proof.
  induction l as [|x l IH]; [reflexivity |].
  cbn [sort_by_rate fold_right]. rewrite filter_insert_offer.
  cbn [filter]. fold (sort_by_rate l). now rewrite IH.
Qed.

Lemma rate_eqb_refl (a : fdec) : rate_eqb a a = true.
Proof. unfold rate_eqb, fcompare. now rewrite Z.compare_refl. Qed.

Lemma fle_antisym (a b : fdec) : fle a b -> fle b a -> rate_eqb b a = true.
Proof.
  unfold fle, rate_eqb. rewrite (fcompare_antisym a b).
  destruct (fcompare a b); simpl; congruence.
Qed.

Lemma rate_eqb_sym (a b : fdec) : rate_eqb a b = rate_eqb b a.
Proof.
  unfold rate_eqb. rewrite (fcompare_antisym a b).
  destruct (fcompare a b); reflexivity.
Qed.

(** An ascending list is determined by its offers of each rate, taken in
    order: two stable sorts of one list agree. *)
Lemma sorted_stable_unique (a b : list Offer) :
  StronglySorted offer_le a -> StronglySorted offer_le b ->
  (forall r, filter (fun o => rate_eqb (rate_dec o) r) a
             = filter (fun o => rate_eqb (rate_dec o) r) b) ->
  a = b.
Proof.
  revert b. induction a as [|x a IH]; intros b Ha Hb H.
  - destruct b as [|y b]; [reflexivity |].
    specialize (H (rate_dec y)). cbn [filter] in H.
    rewrite rate_eqb_refl in H. discriminate H.
  - destruct b as [|y b].
    + specialize (H (rate_dec x)). cbn [filter] in H.
      rewrite rate_eqb_refl in H. discriminate H.
    + inversion Ha as [|? ? Ha' Hxa]; subst.
      inversion Hb as [|? ? Hb' Hyb]; subst.
      assert (Hxy : x = y).
      { pose proof (H (rate_dec x)) as Hx. cbn [filter] in Hx.
        rewrite rate_eqb_refl in Hx.
        destruct (rate_eqb (rate_dec y) (rate_dec x)) eqn:E;
          [now inversion Hx |].
        exfalso.
        assert (In x b) as Hin.
        { apply (proj1 (filter_In (fun o => rate_eqb (rate_dec o) (rate_dec x)) x b)).
          rewrite <- Hx. now left. }
        pose proof (H (rate_dec y)) as Hy. cbn [filter] in Hy.
        rewrite rate_eqb_refl in Hy.
        rewrite (rate_eqb_sym (rate_dec x) (rate_dec y)), E in Hy.
        assert (In y a) as Hin'.
        { apply (proj1 (filter_In (fun o => rate_eqb (rate_dec o) (rate_dec y)) y a)).
          rewrite Hy. now left. }
        rewrite Forall_forall in Hxa, Hyb.
        pose proof (fle_antisym _ _ (Hxa y Hin') (Hyb x Hin)) as C.
        unfold offer_le in *. congruence. }
      subst y. f_equal. apply IH; try assumption.
      intros r. specialize (H r). cbn [filter] in H.
      destruct (rate_eqb (rate_dec x) r); [now inversion H | exact H].
Qed.


End Ranking.

(** ** The lenient rate parser *)

Section OfferRate.

Lemma compare_zero (x : fdec) :
  fcompare x (of_int 0) = (signed x ?= 0).
Proof.
  rewrite (fcompare_at (Z.min (dexp x) 0)) by (unfold of_int; simpl; lia).
  unfold scaled, of_int, signed at 2. cbn [dneg dcoef dexp].
  change (0 <? 0) with false. cbv iota. change (Z.of_N (Z.abs_N 0)) with 0.
  rewrite Z.mul_0_l.
  rewrite <- (Z.mul_0_l (10 ^ (dexp x - Z.min (dexp x) 0))).
  apply mul_compare_pos, pow10_pos. lia.
Qed.

(** A finite Decimal that is neither negative nor at least 1 is a zero or
    a positive fraction [c * 10^-n] with [c < 10^n]. *)
Lemma unit_interval_shape (x : fdec) :
  lt (Fin x) (Fin (of_int 0)) = Ok false ->
  ge (Fin x) (Fin (of_int 1)) = Ok false ->
  dcoef x = 0%N \/
  (dneg x = false /\ dexp x < 0 /\ Z.of_N (dcoef x) < 10 ^ (- dexp x)).
Proof.
  unfold lt, ge, compare. rewrite compare_zero.
  rewrite (fcompare_at (Z.min (dexp x) 0) x (of_int 1))
    by (unfold of_int; simpl; lia).
  unfold scaled, of_int, signed. cbn [dneg dcoef dexp].
  change (1 <? 0) with false. cbv iota. change (Z.of_N (Z.abs_N 1)) with 1.
  destruct x as [s c e]. cbn [dneg dcoef dexp].
  intros H0 H1.
  destruct (N.eq_dec c 0) as [-> | Hc]; [now left | right].
  assert (Hs : s = false).
  { destruct s; [| reflexivity].
    destruct (Z.compare_spec (- Z.of_N c) 0); try discriminate; lia. }
  subst s.
  destruct (Z.compare_spec (Z.of_N c * 10 ^ (e - Z.min e 0))
                           (1 * 10 ^ (0 - Z.min e 0))) as [E | L | G];
    try discriminate.
  destruct (Z_lt_le_dec e 0) as [He | He].
  - rewrite Z.min_l in L by lia.
    replace (e - e) with 0 in L by lia. replace (0 - e) with (- e) in L by lia.
    change (10 ^ 0) with 1 in L. repeat split; lia.
  - exfalso. rewrite Z.min_r in L by lia.
    replace (e - 0) with e in L by lia. change (10 ^ (0 - 0)) with 1 in L.
    pose proof (pow10_pos e He). nia.
Qed.

(** Quantizing a fraction with fewer than five places pads it. *)
Lemma quantize_short_fraction (c : N) (n : Z) :
  0 < n < 5 -> Z.of_N c < 10 ^ n ->
  quantize_half_up (Fin (mkdec false c (- n))) Q5
  = Ok (Fin (mkdec false (Z.to_N (Z.of_N c * 10 ^ (5 - n))) (-5))).
Proof.
  intros Hn Hc. unfold quantize_half_up, Q5. cbn [dcoef dneg dexp].
  destruct (N.eqb_spec c 0) as [-> | Hnz]; [reflexivity |].
  assert (Hbig : 10 ^ n <= 10 ^ (prec + -5 - - n)).
  { unfold prec. apply Z.pow_le_mono_r; lia. }
  destruct (10 ^ (prec + -5 - - n) <=? Z.of_N c) eqn:E1;
    [apply Z.leb_le in E1; lia |].
  unfold rescale_half_up. cbn [dcoef dneg dexp].
  destruct (-5 <=? - n) eqn:E2; [| apply Z.leb_gt in E2; lia].
  replace (- n - -5) with (5 - n) by lia.
  assert (Hlt : Z.of_N c * 10 ^ (5 - n) < 10 ^ 5).
  { replace 5 with (n + (5 - n)) at 2 by lia. rewrite Z.pow_add_r by lia.
    pose proof (pow10_pos (5 - n) ltac:(lia)). nia. }
  pose proof (pow10_pos (5 - n) ltac:(lia)).
  cbn [dcoef]. rewrite Z2N.id by nia.
  destruct (10 ^ prec <=? Z.of_N c * 10 ^ (5 - n)) eqn:E3; [| reflexivity].
  apply Z.leb_le in E3. unfold prec in E3.
  assert (10 ^ 5 < 10 ^ 28) by (apply Z.pow_lt_mono_r; lia). lia.
Qed.

(** In the unit interval [quantize] succeeds and gives a canonical rate. *)
Lemma quantize_unit_interval (x : fdec) :
  lt (Fin x) (Fin (of_int 0)) = Ok false ->
  ge (Fin x) (Fin (of_int 1)) = Ok false ->
  exists y, quantize_half_up (Fin x) Q5 = Ok (Fin y) /\ canonical y = true.
Proof.
  intros H0 H1.
  destruct (unit_interval_shape x H0 H1) as [Hz | (Hs & He & Hc)].
  - exists (mkdec (dneg x) 0 (-5)). split.
    + unfold quantize_half_up. now rewrite Hz.
    + unfold canonical. cbn [dexp dcoef dneg]. now rewrite orb_true_r.
  - destruct x as [s c e]. cbn [dneg dcoef dexp] in *. subst s.
    replace e with (- - e) by lia.
    destruct (Z_lt_le_dec (- e) 5) as [Hn | Hn].
    + eexists. split; [apply quantize_short_fraction; [lia | exact Hc] |].
      unfold canonical. cbn [dexp dcoef dneg].
      assert (Z.of_N c * 10 ^ (5 - - e) < 10 ^ 5).
      { replace 5 with (- e + (5 - - e)) at 2 by lia.
        rewrite Z.pow_add_r by lia.
        pose proof (pow10_pos (5 - - e) ltac:(lia)). nia. }
      pose proof (pow10_pos (5 - - e) ltac:(lia)).
      apply andb_true_iff; split; [| reflexivity].
      apply N.leb_le. change 100000%N with (Z.to_N (10 ^ 5)).
      apply Z2N.inj_le; nia.
    + eexists. split; [apply quantize_fraction; [lia | exact Hc] |].
      unfold canonical. cbn [dexp dcoef dneg].
      apply andb_true_iff; split; [| reflexivity].
      apply N.leb_le. change 100000%N with (Z.to_N (10 ^ 5)).
      apply Z2N.inj_le.
      * apply div_half_up_nonneg; lia.
      * lia.
      * apply div_half_up_le; try lia.
        rewrite <- Z.pow_add_r by lia.
        now replace (5 + (- e - 5)) with (- e) by lia.
Qed.

(** Every rate the lenient parser returns is canonical. *)
Lemma parse_offer_rate_canonical (obj : raw_offer) (y : fdec) :
  parse_offer_rate obj = Ok (Some y) -> canonical y = true.
Proof.
  unfold parse_offer_rate. fold (rate_field obj).
  destruct (rate_field obj) as [v|]; [| discriminate].
  destruct (of_string (py_str v)) as [d|]; [| discriminate].
  destruct d as [x | s | s].
  - destruct (lt (Fin x) (Fin (of_int 0))) as [[|]|] eqn:H0; cbn [bind];
      try discriminate.
    destruct (ge (Fin x) (Fin (of_int 1))) as [[|]|] eqn:H1; cbn [bind];
      try discriminate.
    destruct (quantize_unit_interval x H0 H1) as (y' & -> & Hc).
    cbn [bind]. intros H. now inversion H; subst.
  - destruct s; discriminate.
  - discriminate.
Qed.

(** The three ways to get no rate, and no error. *)
Lemma parse_offer_rate_absent (obj : raw_offer) :
  (rate_field obj = None -> parse_offer_rate obj = Ok None) /\
  (forall v, rate_field obj = Some v ->
             of_string (py_str v) = Raise InvalidOperation ->
             parse_offer_rate obj = Ok None) /\
  (forall v d, rate_field obj = Some v ->
               of_string (py_str v) = Ok d ->
               lt d (Fin (of_int 0)) = Ok true \/
               (lt d (Fin (of_int 0)) = Ok false /\
                ge d (Fin (of_int 1)) = Ok true) ->
               parse_offer_rate obj = Ok None).
Proof.
  unfold parse_offer_rate. fold (rate_field obj). repeat split.
  - now intros ->.
  - now intros v -> ->.
  - intros v d -> -> [-> | [-> ->]]; reflexivity.
Qed.

(** C9: a record whose [rate] is the string "NaN" does not give absence:
    [Decimal("NaN")] is constructed without error and the range test that
    follows raises [InvalidOperation], which then fails the whole fetch. *)
Theorem parse_offer_rate_nan_raises :
  of_string "NaN" = Ok (NaN false) /\
  parse_offer_rate raw_nan = Raise InvalidOperation /\
  fetch_offers (Ok (mkfeed (Some [raw_rated "a" "0.15"; raw_nan]) None))
  = Raise InvalidOperation.
Proof. repeat split. Qed.

End OfferRate.

(** ** Savings *)

Section Savings.

Lemma canonical_spec (x : fdec) :
  canonical x = true ->
  dexp x = -5 /\ 0 <= signed x <= 100000 /\ signed x = Z.of_N (dcoef x).
Proof.
  unfold canonical, signed. intros H.
  apply andb_true_iff in H as [H H3]. apply andb_true_iff in H as [H1 H2].
  apply Z.eqb_eq in H1. apply N.leb_le in H2.
  destruct (dneg x); simpl in H3.
  - apply N.eqb_eq in H3. rewrite H3. simpl. lia.
  - lia.
Qed.

Lemma fix_prec_small (d : fdec) :
  Z.of_N (dcoef d) < 10 ^ prec -> fix_prec d = d.
Proof.
  intros H. unfold fix_prec. apply Z.ltb_lt in H. now rewrite H.
Qed.

(** The difference of two canonical rates is exact. *)
Lemma sub_canonical (u o : fdec) :
  canonical u = true -> canonical o = true ->
  exists d,
    sub (Fin u) (Fin o) = Ok (Fin d) /\
    dexp d = -5 /\ signed d = signed u - signed o.
Proof.
  intros Hu Ho.
  destruct (canonical_spec u Hu) as (Eu & Bu & _).
  destruct (canonical_spec o Ho) as (Eo & Bo & _).
  exists (fsub_exact u o).
  assert (Hd : dexp (fsub_exact u o) = -5 /\
               signed (fsub_exact u o) = signed u - signed o /\
               Z.of_N (dcoef (fsub_exact u o)) <= 100000).
  { unfold fsub_exact. rewrite Eu, Eo.
    change (Z.min (-5) (-5)) with (-5). change (10 ^ (-5 - -5)) with 1.
    rewrite !Z.mul_1_r.
    assert (Hv : -100000 <= signed u - signed o <= 100000) by lia.
    revert Hv. generalize (signed u - signed o). intros v Hv.
    destruct (Z.eqb_spec v 0) as [E | E].
    - unfold signed. cbn [dexp dcoef dneg].
      destruct (dneg u && negb (dneg o)); simpl; lia.
    - unfold signed. cbn [dexp dcoef dneg].
      destruct (Z.ltb_spec v 0); rewrite N2Z.inj_abs_N; lia. }
  destruct Hd as (H1 & H2 & H3).
  repeat split; try assumption.
  unfold sub.
  rewrite fix_prec_small; [reflexivity |].
  unfold prec. assert (100000 < 10 ^ 28) by reflexivity. lia.
Qed.

(** C8 fails as stated: with a negative usage the result is negative. *)
Lemma money_savings_negative_usage :
  exists d,
    money_savings_per_month (Fin (mkdec false 15000 (-5)))
                            (Fin (mkdec false 12000 (-5))) (-750)
    = Ok (Fin d) /\ signed d < 0 /\ format_f 2 (Fin d) = "-22.50"%string.
Proof. eexists. repeat split. Qed.

(** The 28-digit context bounds the usage for which a result exists. *)
Example money_savings_huge_usage :
  money_savings_per_month (Fin (mkdec false 100000 (-5)))
                          (Fin (mkdec false 1 (-5))) (10 ^ 27)
  = Raise InvalidOperation.
Proof. reflexivity. Qed.

(** Savings on canonical rates, for a usage the context handles exactly:
    the cents are the product rounded half-up, or zero. *)
Lemma money_savings_canonical (u o : fdec) (k : Z) :
  canonical u = true -> canonical o = true -> 0 <= k < 10 ^ 23 ->
  let diff := signed u - signed o in
  exists cents : Z,
    money_savings_per_month (Fin u) (Fin o) k
    = Ok (Fin (mkdec false (Z.to_N cents) (-2))) /\
    0 <= cents /\
    (diff <= 0 -> cents = 0) /\
    (0 < diff ->
     2 * 1000 * cents <= 2 * (diff * k) + 1000 < 2 * 1000 * cents + 2 * 1000).
Proof.
  intros Hu Ho Hk diff.
  destruct (canonical_spec u Hu) as (_ & Bu & _).
  destruct (canonical_spec o Ho) as (_ & Bo & _).
  destruct (sub_canonical u o Hu Ho) as (d & Hsub & Hde & Hds).
  fold diff in Hds.
  unfold money_savings_per_month. rewrite Hsub. cbn [bind].
  unfold le, compare. rewrite compare_zero, Hds.
  destruct (Z.compare_spec diff 0) as [E | L | G]; cbn [bind].
  - exists 0. repeat split; try lia. 
  - exists 0. repeat split; try lia. 
  - (* a positive difference *)
    assert (Hdn : dneg d = false).
    { unfold signed in Hds. destruct (dneg d); [lia | reflexivity]. }
    assert (Hdc : Z.of_N (dcoef d) = diff).
    { unfold signed in Hds. now rewrite Hdn in Hds. }
    assert (Hp : Z.of_N (dcoef d * Z.abs_N k) = diff * k).
    { rewrite N2Z.inj_mul, N2Z.inj_abs_N, Hdc, Z.abs_eq by lia. reflexivity. }
    assert (H23 : 10 ^ 28 = 100000 * 10 ^ 23) by reflexivity.
    assert (Hlt : diff * k < 10 ^ 28) by nia.
    assert (Hmul : mul (Fin d) (Fin (of_int k))
                   = Ok (Fin (mkdec false (dcoef d * Z.abs_N k) (-5)))).
    { unfold mul.
      rewrite fix_prec_small.
      - unfold fmul_exact, of_int. cbn [dneg dcoef dexp].
        rewrite Hdn, Hde.
        destruct (Z.ltb_spec k 0); [lia | reflexivity].
      - unfold fmul_exact, of_int. cbn [dneg dcoef dexp]. now rewrite Hp. }
    rewrite Hmul. cbn [bind].
    exists (div_half_up (diff * k) 3).
    pose proof (div_half_up_nearest (diff * k) 3 ltac:(lia)) as Hn.
    cbv zeta in Hn. change (10 ^ 3) with 1000 in Hn.
    pose proof (div_half_up_nonneg (diff * k) 3 ltac:(lia) ltac:(nia)) as Hnn.
    repeat split; try lia.
    unfold quantize_half_up. cbn [dcoef dneg dexp].
    destruct (N.eqb_spec (dcoef d * Z.abs_N k) 0) as [Ez | Ez].
    + rewrite Ez in Hp. change (Z.of_N 0) with 0 in Hp. rewrite <- Hp.
      reflexivity.
    + rewrite Hp.
      assert (H31 : 10 ^ 28 < 10 ^ (prec + -2 - -5)) by reflexivity.
      destruct (10 ^ (prec + -2 - -5) <=? diff * k) eqn:E1;
        [apply Z.leb_le in E1; lia |].
      unfold rescale_half_up. cbn [dcoef dneg dexp].
      change (-2 <=? -5) with false. cbv iota. change (-2 - -5) with 3.
      rewrite Hp. cbn [dcoef]. rewrite Z2N.id by lia.
      destruct (10 ^ prec <=? div_half_up (diff * k) 3) eqn:E2; [| reflexivity].
      apply Z.leb_le in E2. unfold prec in E2. exfalso. nia.
Qed.

(** C8, amended: for canonical rates and a usage [0 <= k < 10^23] (where
    the 28-digit context is exact) the savings are
    [(user_rate - best_rate) * k] rounded half-up to cents when the
    difference is positive, and 0.00 otherwise; the result is never
    negative.  With the default usage 750: 0.15000 against 0.12000 saves
    22.50, 0.10000 against 0.12000 saves 0.00. *)
Theorem money_savings_per_month_spec :
  (forall (u o : fdec) (k : Z),
      canonical u = true -> canonical o = true -> 0 <= k < 10 ^ 23 ->
      let diff := signed u - signed o in
      exists cents : Z,
        money_savings_per_month (Fin u) (Fin o) k
        = Ok (Fin (mkdec false (Z.to_N cents) (-2))) /\
        0 <= cents /\
        (diff <= 0 -> cents = 0) /\
        (0 < diff ->
         2 * 1000 * cents <= 2 * (diff * k) + 1000 < 2 * 1000 * cents + 2 * 1000)) /\
  money_savings_per_month (Fin (mkdec false 15000 (-5)))
                          (Fin (mkdec false 12000 (-5))) 750
  = Ok (Fin (mkdec false 2250 (-2))) /\
  money_savings_per_month (Fin (mkdec false 10000 (-5)))
                          (Fin (mkdec false 12000 (-5))) 750
  = Ok (Fin (mkdec false 0 (-2))).
Proof.
  split; [| split; reflexivity].
  intros u o k. apply money_savings_canonical.
Qed.

Lemma money_savings_per_month_spec_witness :
  exists cents : Z,
    money_savings_per_month (Fin (mkdec false 12641 (-5)))
                            (Fin (mkdec false 9990 (-5))) 750
    = Ok (Fin (mkdec false (Z.to_N cents) (-2))) /\
    0 <= cents /\
    (12641 - 9990 <= 0 -> cents = 0) /\
    (0 < 12641 - 9990 ->
     2 * 1000 * cents <= 2 * ((12641 - 9990) * 750) + 1000
                      < 2 * 1000 * cents + 2 * 1000).
Proof.
  apply (proj1 money_savings_per_month_spec
           (mkdec false 12641 (-5)) (mkdec false 9990 (-5)) 750).
  - reflexivity.
  - reflexivity.
  - split; [lia | reflexivity].
Defined.

End Savings.

(** ** The store *)

Section Store.

Lemma string_ltb_irrefl (s : string) : String.ltb s s = false.
Proof.
  unfold String.ltb. pose proof (String.compare_antisym s s) as H.
  destruct (String.compare s s); simpl in H; congruence.
Qed.

Lemma dict_get_set_same (uid : Z) (v : user_info) (data : store) :
  dict_get uid (dict_set uid v data) = Some v.
Proof.
  induction data as [|[k w] rest IH]; simpl.
  - now rewrite Z.eqb_refl.
  - destruct (k =? uid) eqn:E; simpl; now rewrite E.
Qed.

(** Writing the keys in order does not change what a key maps to. *)
Lemma dict_get_insert_key (uid : Z) (x : Z * user_info) (l : store) :
  dict_get uid (insert_key x l) = dict_get uid (x :: l).
Proof.
  induction l as [|y l IH]; [reflexivity |].
  cbn [insert_key].
  destruct (String.ltb (key_of (fst y)) (key_of (fst x))) eqn:E; [| reflexivity].
  destruct x as [kx vx], y as [ky vy]. cbn [fst] in E.
  cbn [dict_get] in *. rewrite IH.
  destruct (Z.eqb_spec kx uid) as [-> | Hx]; [| reflexivity].
  destruct (Z.eqb_spec ky uid) as [-> | Hy]; [| reflexivity].
  now rewrite string_ltb_irrefl in E.
Qed.

Lemma dict_get_sort_keys (uid : Z) (data : store) :
  dict_get uid (sort_keys data) = dict_get uid data.
Proof.
  induction data as [|[k v] rest IH]; [reflexivity |].
  cbn [sort_keys fold_right]. rewrite dict_get_insert_key.
  fold (sort_keys rest). cbn [dict_get]. now rewrite IH.
Qed.

End Store.

(** ** setrate *)

Section SetRate.

(** What a successful [setrate] leaves in the file for its author: the
    new rate and context, and the notification fields as they were, or
    null where the key was missing. *)
Lemma setrate_stored (ctx : context) (rate_arg : string) (d : Decimal) (w : world) :
  parse_user_rate rate_arg = Ok d ->
  let before :=
    match dict_get (author_id ctx) (match file w with Some data => data | None => [] end) with
    | Some i => i
    | None => empty_info
    end in
  exists data',
    file (snd (setrate ctx rate_arg w)) = Some data' /\
    dict_get (author_id ctx) data'
    = Some {| rate := Some (format_f 5 d);
              notify_channel_id := Some (Some (channel_id ctx));
              notify_guild_id := Some (guild_id ctx);
              last_notified_offer_id := setdefault_none (last_notified_offer_id before);
              last_notified_rate := setdefault_none (last_notified_rate before) |}.
Proof.
  intros Hp before. unfold setrate. rewrite Hp.
  unfold mbind, load_data, save_data, emit. cbn [snd file].
  eexists. split; [reflexivity |].
  rewrite dict_get_sort_keys. apply dict_get_set_same.
Qed.

(** A first [setrate], or one on a record without notification fields,
    leaves the user unnotified. *)
Lemma setrate_fresh_unnotified (ctx : context) (rate_arg : string) (d : Decimal) (w : world) :
  parse_user_rate rate_arg = Ok d ->
  (forall data i, file w = Some data -> dict_get (author_id ctx) data = Some i ->
                  unnotified i) ->
  exists data' info',
    file (snd (setrate ctx rate_arg w)) = Some data' /\
    dict_get (author_id ctx) data' = Some info' /\ unnotified info'.
Proof.
  intros Hp Hnew.
  destruct (setrate_stored ctx rate_arg d w Hp) as (data' & Hf & Hg).
  exists data'. eexists. split; [exact Hf | split; [exact Hg |]].
  unfold unnotified, dedup_state. cbn [last_notified_offer_id last_notified_rate].
  destruct (file w) as [data|] eqn:F.
  - destruct (dict_get (author_id ctx) data) as [i|] eqn:G; [| reflexivity].
    specialize (Hnew data i eq_refl G). unfold unnotified, dedup_state in Hnew.
    inversion Hnew as [[H1 H2]].
    destruct (last_notified_offer_id i) as [[?|]|], (last_notified_rate i) as [[?|]|];
      simpl in *; congruence.
  - reflexivity.
Qed.

(** C1: [setrate] does not reset the de-duplication state of a user who
    was notified before: [setdefault] leaves the two fields as they are,
    so the stored record still names the offer last reported. *)
Theorem setrate_keeps_notified_state
    (ctx : context) (rate_arg : string) (d : Decimal) (w : world)
    (data : store) (before : user_info) (offer_id offer_rate : string) :
  parse_user_rate rate_arg = Ok d ->
  file w = Some data ->
  dict_get (author_id ctx) data = Some before ->
  last_notified_offer_id before = Some (Some offer_id) ->
  last_notified_rate before = Some (Some offer_rate) ->
  exists data' after,
    file (snd (setrate ctx rate_arg w)) = Some data' /\
    dict_get (author_id ctx) data' = Some after /\
    rate after = Some (format_f 5 d) /\
    dedup_state after = (Some offer_id, Some offer_rate).
Proof.
  intros Hp Hf Hg H1 H2.
  destruct (setrate_stored ctx rate_arg d w Hp) as (data' & Hf' & Hg').
  rewrite Hf, Hg in Hg'.
  exists data'. eexists. split; [exact Hf' | split; [exact Hg' |]].
  split; [reflexivity |].
  unfold dedup_state. cbn [last_notified_offer_id last_notified_rate].
  now rewrite H1, H2.
Qed.

Lemma setrate_keeps_notified_state_witness :
  exists data' after,
    file (snd (setrate (mkctx 42 7 (Some 9)) "0.12641"
                       (mkworld (Some [(42, notified_user)]) [])))
    = Some data' /\
    dict_get 42 data' = Some after /\
    rate after = Some "0.12641"%string /\
    dedup_state after = (Some "123"%string, Some "0.09990"%string).
Proof.
  apply (setrate_keeps_notified_state (mkctx 42 7 (Some 9)) "0.12641"
           (Fin (mkdec false 12641 (-5)))
           (mkworld (Some [(42, notified_user)]) [])
           [(42, notified_user)] notified_user "123" "0.09990");
    reflexivity.
Defined.

End SetRate.

(** ** The daily pass *)

Section DailyPass.

Lemma cheaper_than_filter (offers : list Offer) (u : fdec) :
  cheaper_than offers (Fin u)
  = Ok (filter (fun o => rate_lt (rate_dec o) u) offers).
Proof.
  induction offers as [|o rest IH]; [reflexivity |].
  cbn [cheaper_than filter]. rewrite IH.
  unfold lt, compare, rate_lt.
  destruct (fcompare (rate_dec o) u); reflexivity.
Qed.

Lemma normalize_well_formed (raws : list raw_offer) (offers : list Offer) :
  normalize raws = Ok offers -> Forall well_formed offers.
Proof.
  revert offers. induction raws as [|o rest IH]; intros offers H.
  - inversion H. constructor.
  - cbn [normalize] in H.
    destruct (parse_offer_rate o) as [rdec|] eqn:P; cbn [bind] in H; [| discriminate].
    destruct (normalize rest) as [tl|]; cbn [bind] in H; [| discriminate].
    destruct rdec as [d|]; inversion H; subst; [| now apply IH].
    constructor; [| now apply IH].
    split; [exact (parse_offer_rate_canonical o d P) | reflexivity].
Qed.

Lemma fle_refl (a : fdec) : fle a a.
Proof. unfold fle, fcompare. now rewrite Z.compare_refl. Qed.

Lemma StronglySorted_filter {A} (R : A -> A -> Prop) (p : A -> bool) (l : list A) :
  StronglySorted R l -> StronglySorted R (filter p l).
Proof.
  induction 1 as [|a l Hs IH Hf]; simpl; [constructor |].
  destruct (p a); [| exact IH].
  constructor; [exact IH |].
  rewrite Forall_forall in *. intros x Hx.
  apply filter_In in Hx as [Hx _]. now apply Hf.
Qed.

(** What [fetch_offers] returns is well formed and in ascending order. *)
Lemma fetch_offers_ranked (r : result feed) (offers : list Offer) :
  fetch_offers r = Ok offers ->
  Forall well_formed offers /\ StronglySorted offer_le offers.
Proof.
  unfold fetch_offers. destruct r as [data|]; cbn [bind]; [| discriminate].
  destruct (normalize _) as [l|] eqn:N; cbn [bind]; [| discriminate].
  intros H. inversion H; subst. split.
  - apply (Permutation_Forall (sort_by_rate_perm l)).
    exact (normalize_well_formed _ _ N).
  - apply Sorted_StronglySorted; [exact offer_le_trans | apply sort_by_rate_sorted].
Qed.

(** The head of the cheaper offers is the cheapest of them. *)
Lemma cheaper_head_best (offers : list Offer) (u : fdec) (best : Offer) (rest : list Offer) :
  StronglySorted offer_le offers ->
  filter (fun o => rate_lt (rate_dec o) u) offers = best :: rest ->
  Forall (offer_le best) (best :: rest).
Proof.
  intros Hs Hf.
  apply (StronglySorted_filter _ (fun o => rate_lt (rate_dec o) u)) in Hs.
  rewrite Hf in Hs. inversion Hs; subst.
  constructor; [apply fle_refl | assumption].
Qed.

Lemma send_notification_contained
    (e : env) (uid : Z) (info : user_info) (n : notification) (w : world) :
  delivery_contained e uid ->
  exists evs,
    evs <> [] /\ Forall (notifies uid n) evs /\
    send_notification e uid info n w = (Ok tt, mkworld (file w) (log w ++ evs)).
Proof.
  intros [Hc Hu]. unfold send_notification.
  assert (Hdm : forall w0,
    (_ <~ emit (UserSend uid n) ;;
     match user_send e uid n with
     | Ok _ => ret tt
     | Raise Forbidden => ret tt
     | Raise other => raise other
     end) w0 = (Ok tt, mkworld (file w0) (log w0 ++ [UserSend uid n]))).
  { intros w0. unfold mbind, emit, ret.
    destruct (Hu n) as [-> | ->]; reflexivity. }
  destruct (match get (notify_channel_id info) with
            | Some c => if c =? 0 then None
                        else if is_text_channel e c then Some c else None
            | None => None
            end) as [c|].
  - unfold mbind at 1. unfold emit at 1.
    destruct (Hc c n) as [-> | [-> | ->]].
    + exists [ChannelSend c uid n].
      repeat split; [discriminate | repeat constructor].
    + exists [ChannelSend c uid n; UserSend uid n].
      repeat split; [discriminate | repeat constructor |].
      rewrite Hdm. cbn [file log]. now rewrite <- app_assoc.
    + exists [ChannelSend c uid n; UserSend uid n].
      repeat split; [discriminate | repeat constructor |].
      rewrite Hdm. cbn [file log]. now rewrite <- app_assoc.
  - exists [UserSend uid n].
    repeat split; [discriminate | repeat constructor |].
    apply Hdm.
Qed.

Lemma already_notified_iff (info : user_info) (best : Offer) :
  already_notified info best = true
  <-> dedup_state info = (Some (id best), Some (rate_str best)).
Proof.
  unfold already_notified, dedup_state, opt_eqb.
  destruct (get (last_notified_offer_id info)) as [a|],
           (get (last_notified_rate info)) as [b|];
    rewrite andb_true_iff; split;
    try (intros [H1 H2]; discriminate);
    try (intros H; discriminate H).
  - intros [H1 H2]. apply String.eqb_eq in H1, H2. now subst.
  - intros H. inversion H. now rewrite !String.eqb_refl.
Qed.

End DailyPass.

(** ** Claims on the daily pass *)

Section DailyPassClaims.

(** X21: the loop body of [daily_check] for one user with a stored
    canonical rate, with offers from [fetch_offers] and delivery failures
    of the kinds the notifier absorbs: with no offer strictly cheaper than
    the rate nothing is sent and the record is unchanged; with a cheapest
    such offer [best] whose pair [(id, rate_str)] is the stored pair
    nothing is sent and the record is unchanged; otherwise [best] is sent
    to the user and the record returned carries the pair of [best]. *)
Theorem process_user_dedup
    (e : env) (offers : list Offer) (uid : Z) (info : user_info)
    (r : string) (u : fdec) (w : world) :
  fetch_offers (response e) = Ok offers ->
  rate info = Some r ->
  of_string r = Ok (Fin u) ->
  canonical u = true ->
  delivery_contained e uid ->
  match filter (fun o => rate_lt (rate_dec o) u) offers with
  | [] => process_user e offers uid info w = (Ok info, w)
  | best :: rest =>
      Forall (offer_le best) (best :: rest) /\
      (dedup_state info = (Some (id best), Some (rate_str best)) ->
       process_user e offers uid info w = (Ok info, w)) /\
      (dedup_state info <> (Some (id best), Some (rate_str best)) ->
       exists n evs,
         n_best n = best /\ evs <> [] /\ Forall (notifies uid n) evs /\
         process_user e offers uid info w
         = (Ok (mark_notified info best), mkworld (file w) (log w ++ evs)) /\
         dedup_state (mark_notified info best)
         = (Some (id best), Some (rate_str best)))
  end.
Proof.
  intros Hf Hr Hu Hc Hd.
  destruct (fetch_offers_ranked _ _ Hf) as [Hwf Hs].
  unfold process_user, mark_notified. rewrite Hr, Hu.
  unfold mbind, lift. rewrite cheaper_than_filter.
  destruct (filter (fun o => rate_lt (rate_dec o) u) offers)
    as [|best rest] eqn:F; [reflexivity |].
  split; [exact (cheaper_head_best offers u best rest Hs F) |].
  cbv zeta. fold (already_notified info best).
  split.
  - intros H. apply already_notified_iff in H. now rewrite H.
  - intros H.
    destruct (already_notified info best) eqn:A;
      [apply already_notified_iff in A; contradiction |].
    assert (Hb : canonical (rate_dec best) = true).
    { rewrite Forall_forall in Hwf.
      apply (Hwf best).
      apply (proj1 (filter_In (fun o => rate_lt (rate_dec o) u) best offers)).
      rewrite F. now left. }
    destruct (money_savings_canonical u (rate_dec best) 750 Hc Hb)
      as (cents & Hm & _); [split; [lia | reflexivity] |].
    rewrite Hm.
    set (n := mknote (Fin u) best (Fin (mkdec false (Z.to_N cents) (-2)))
                     (tl (firstn 3 (best :: rest)))).
    destruct (send_notification_contained e uid info n w Hd)
      as (evs & Hne & Hall & Hsend).
    exists n, evs. repeat split; try assumption.
    now rewrite Hsend.
Qed.

Lemma process_user_dedup_witness :
  exists n evs,
    n_best n = repriced_offer /\ evs <> [] /\ Forall (notifies 42 n) evs /\
    process_user (quiet_env (one_offer "A" "0.09")) [repriced_offer] 42
                 told_of_A (mkworld None [])
    = (Ok (mark_notified told_of_A repriced_offer), mkworld None ([] ++ evs)) /\
    dedup_state (mark_notified told_of_A repriced_offer)
    = (Some "A", Some "0.09000")%string.
Proof.
  refine (proj2 (proj2 (process_user_dedup
            (quiet_env (one_offer "A" "0.09")) [repriced_offer] 42 told_of_A
            "0.12641" (mkdec false 12641 (-5)) (mkworld None [])
            eq_refl eq_refl eq_refl eq_refl _)) _).
  - split; intros; left; reflexivity.
  - discriminate.
Defined.

(** C2: the transition to Notified is lost when a delivery raises.  User 1
    is at 0.20000 and unnotified, offer B at 0.10000 is strictly cheaper,
    so the third case applies to user 1.  When the direct message to user 1
    fails with an HTTP error other than [Forbidden], the notification for B
    fires (both sends are made) but the pass raises and the file still has
    user 1 unnotified.  When the message to user 1 is delivered and the
    loop body marks the record, but the delivery to user 2 then raises,
    the file again keeps user 1 unnotified: [save_data] is never reached. *)
Theorem daily_check_dedup_not_advanced :
  (fetch_offers (response (failing_env HTTPException)) = Ok [offer_B] /\
   stored two_users 1 = Some (subscriber "0.20000" None) /\
   filter (fun o => rate_lt (rate_dec o) (mkdec false 20000 (-5))) [offer_B]
   = [offer_B] /\
   dedup_state (subscriber "0.20000" None)
   <> (Some (id offer_B), Some (rate_str offer_B))) /\
  (exists n,
      n_best n = offer_B /\
      daily_check (failing_env HTTPException) two_users
      = (Raise HTTPException,
         mkworld (file two_users) [ChannelSend 7 1 n; UserSend 1 n]) /\
      stored (snd (daily_check (failing_env HTTPException) two_users)) 1
      = Some (subscriber "0.20000" None)) /\
  (exists n,
      n_best n = offer_B /\
      process_user second_user_failing_env [offer_B] 1
                   (subscriber "0.20000" None) two_users
      = (Ok (mark_notified (subscriber "0.20000" None) offer_B),
         mkworld (file two_users) [ChannelSend 7 1 n]) /\
      daily_check second_user_failing_env two_users
      = (Raise HTTPException,
         mkworld (file two_users)
                 [ChannelSend 7 1 n; ChannelSend 7 2 n; UserSend 2 n]) /\
      stored (snd (daily_check second_user_failing_env two_users)) 1
      = Some (subscriber "0.20000" None)).
Proof.
  split; [| split].
  - repeat split. discriminate.
  - eexists. split; [| split]; [| vm_compute; reflexivity | vm_compute; reflexivity].
    reflexivity.
  - eexists. split; [| split; [| split]];
      [| vm_compute; reflexivity | vm_compute; reflexivity | vm_compute; reflexivity].
    reflexivity.
Qed.

(** C3: when the fetch raises, or returns no offer, the pass ends with
    the world as it was: nothing is sent and the file is not written. *)
Theorem daily_check_fetch_failure (e : env) (w : world) :
  (exists ex, fetch_offers (response e) = Raise ex) \/
  fetch_offers (response e) = Ok [] ->
  daily_check e w = (Ok tt, w).
Proof.
  intros H. unfold daily_check, mbind, load_data.
  destruct (match file w with Some data => data | None => [] end);
    [reflexivity |].
  destruct H as [[ex ->] | ->]; reflexivity.
Qed.

Lemma daily_check_fetch_failure_witness :
  daily_check (quiet_env (Raise RuntimeError)) one_subscriber
  = (Ok tt, one_subscriber) /\
  daily_check (quiet_env (Ok (mkfeed None (Some [])))) one_subscriber
  = (Ok tt, one_subscriber).
Proof.
  split.
  - apply daily_check_fetch_failure. left. exists RuntimeError. reflexivity.
  - apply daily_check_fetch_failure. right. reflexivity.
Defined.

(** When every failure is one the notifier absorbs, the pass completes:
    both users are marked and the file is written once. *)
Example daily_check_forbidden_absorbed :
  let best := make_offer (raw_rated "B" "0.10") (mkdec false 10000 (-5)) in
  let after :=
    [(1, mark_notified (subscriber "0.20000" None) best);
     (2, mark_notified (subscriber "0.20000" None) best)] in
  exists n,
    daily_check (failing_env Forbidden) two_users
    = (Ok tt,
       mkworld (Some after)
               [ChannelSend 7 1 n; UserSend 1 n;
                ChannelSend 7 2 n; UserSend 2 n; WriteFile after]).
Proof. eexists. vm_compute. reflexivity. Qed.

(** C4: a direct message that fails with an HTTP error other than
    [Forbidden] is not absorbed by the notifier: the exception leaves
    [daily_check], user 1 is not marked, user 2 is never processed and
    the file is not written. *)
Theorem daily_check_delivery_error_aborts :
  exists n,
    daily_check (failing_env HTTPException) two_users
    = (Raise HTTPException,
       mkworld (file two_users) [ChannelSend 7 1 n; UserSend 1 n]).
Proof. eexists. vm_compute. reflexivity. Qed.

End DailyPassClaims.

(** ** The invariant of the store and the complete pass *)

Section StoreInvariant.
Import Text.

Lemma digit_char_isdigit (n : Z) : isdigit (digit_char n) = true.
Proof.
  unfold isdigit, digit_char, code.
  pose proof (Z.mod_pos_bound n 10 ltac:(lia)) as B.
  rewrite N_ascii_embedding by lia.
  rewrite Z2N.id by lia.
  apply andb_true_iff; split; apply Z.leb_le; lia.
Qed.

Lemma last_digits_spec (k : nat) (n : Z) (acc : list ascii) :
  forallb isdigit acc = true ->
  forallb isdigit (last_digits k n acc) = true /\
  List.length (last_digits k n acc) = (k + List.length acc)%nat.
Proof.
  revert n acc. induction k as [|k IH]; intros n acc H; cbn [last_digits].
  - now split.
  - destruct (IH (n / 10) (digit_char n :: acc)) as [H1 H2].
    + cbn [forallb]. now rewrite digit_char_isdigit.
    + split; [exact H1 |]. rewrite H2. simpl. lia.
Qed.

(** The text [setrate] stores for a parsed rate reads back as a canonical
    rate. *)
Lemma stored_rate_ok (rate_arg : string) (d : Decimal) :
  parse_user_rate rate_arg = Ok d ->
  exists u, of_string (format_f 5 d) = Ok (Fin u) /\ canonical u = true.
Proof.
  rewrite parse_user_rate_eq. cbv zeta.
  destruct (startswith_minus _); [discriminate |].
  destruct (RATE_INPUT_RE_match _) as [frac|] eqn:M; [| discriminate].
  destruct (List.length frac <? 5)%nat eqn:L; [discriminate |].
  apply Nat.ltb_ge in L.
  apply RATE_INPUT_RE_match_strip in M as (Hne & Hd & _).
  intros H. inversion H; subst d. clear H.
  pose proof (digits_val_bound frac Hd) as B.
  assert (Hr : 0 <= Z.of_N (rounded_rate frac) <= 10 ^ 5).
  { unfold rounded_rate.
    pose proof (div_half_up_nonneg (Z.of_N (digits_val frac))
                  (Z.of_nat (List.length frac) - 5) ltac:(lia) ltac:(lia)).
    rewrite Z2N.id by lia. split; [lia |].
    apply div_half_up_le; try lia.
    rewrite <- Z.pow_add_r by lia.
    now replace (5 + (Z.of_nat (List.length frac) - 5))
      with (Z.of_nat (List.length frac)) by lia. }
  revert Hr. generalize (rounded_rate frac). intros c Hc.
  destruct (Z.eq_dec (Z.of_N c) (10 ^ 5)) as [E | E].
  - assert (c = 100000%N) by (change (10 ^ 5) with (Z.of_N 100000) in E; lia).
    subst c. eexists. split; reflexivity.
  - unfold format_f. cbn [dneg dcoef].
    change (Z.of_nat 5) with 5.
    rewrite Z.div_small by lia.
    change (NilZero.string_of_uint (N.to_uint (Z.to_N 0))) with "0"%string.
    cbn [String.append].
    destruct (last_digits_spec 5 (Z.of_N c) [] eq_refl) as [Hdig Hlen].
    set (ds := last_digits 5 (Z.of_N c) []) in *.
    assert (Hds : ds <> []) by (destruct ds; [discriminate Hlen | discriminate]).
    unfold of_string. cbn [list_ascii_of_string].
    rewrite list_ascii_of_string_of_list_ascii.
    rewrite (of_chars_rate _ ds (rate_text_stripped ds Hds Hdig) Hds Hdig).
    eexists. split; [reflexivity |].
    unfold canonical. cbn [dexp dcoef dneg]. rewrite Hlen.
    pose proof (digits_val_bound ds Hdig) as Bd. rewrite Hlen in Bd.
    change (Z.of_nat (5 + List.length (@nil ascii))) with 5 in Bd.
    apply andb_true_iff; split; [| reflexivity].
    apply andb_true_iff; split; [reflexivity |].
    apply N.leb_le. change (10 ^ 5) with 100000 in Bd. lia.
Qed.

(** A successful [setrate] stores a record whose rate is canonical. *)
Lemma setrate_rate_ok (ctx : context) (rate_arg : string) (d : Decimal) (w : world) :
  parse_user_rate rate_arg = Ok d ->
  exists data' info',
    file (snd (setrate ctx rate_arg w)) = Some data' /\
    dict_get (author_id ctx) data' = Some info' /\ rate_ok info'.
Proof.
  intros Hp.
  destruct (setrate_stored ctx rate_arg d w Hp) as (data' & Hf & Hg).
  destruct (stored_rate_ok rate_arg d Hp) as (u & Hu & Hc).
  exists data'. eexists. split; [exact Hf | split; [exact Hg |]].
  unfold rate_ok. cbn [rate]. now rewrite Hu.
Qed.

Lemma transition_rate_ok (offers : list Offer) (info : user_info) :
  rate_ok info -> rate_ok (transition offers info).
Proof.
  unfold transition, rate_ok. intros H.
  destruct (rate info) as [r|] eqn:R; [| now rewrite R].
  destruct (of_string r) as [[u|s|s]|ex] eqn:P; try (now rewrite R, P).
  destruct (filter _ offers) as [|best rest]; [now rewrite R, P |].
  destruct (already_notified info best); [now rewrite R, P |].
  cbn [mark_notified rate]. now rewrite R, P.
Qed.

(** With well-formed offers, a canonical stored rate and delivery failures
    the notifier absorbs, the loop body returns the transition and only
    adds sends to the user. *)
Lemma process_user_total
    (e : env) (offers : list Offer) (uid : Z) (info : user_info) (w : world) :
  Forall well_formed offers -> rate_ok info -> delivery_contained e uid ->
  exists evs,
    process_user e offers uid info w
    = (Ok (transition offers info), mkworld (file w) (log w ++ evs)) /\
    Forall (fun ev => exists n, notifies uid n ev) evs.
Proof.
  intros Hwf Hok Hd. unfold process_user, transition, rate_ok in *.
  assert (Hnil : (Ok (A:=user_info) info, w)
                 = (Ok info, mkworld (file w) (log w ++ []))).
  { rewrite app_nil_r. now destruct w. }
  destruct (rate info) as [r|] eqn:R;
    [| exists []; split; [exact Hnil | constructor]].
  destruct (of_string r) as [[u|s|s]|ex]; try contradiction;
    [| exists []; split; [exact Hnil | constructor]].
  unfold mbind, lift. rewrite cheaper_than_filter.
  destruct (filter (fun o => rate_lt (rate_dec o) u) offers)
    as [|best rest] eqn:F; [exists []; split; [exact Hnil | constructor] |].
  cbv zeta. fold (already_notified info best).
  destruct (already_notified info best);
    [exists []; split; [exact Hnil | constructor] |].
  assert (Hb : canonical (rate_dec best) = true).
  { rewrite Forall_forall in Hwf. apply (Hwf best).
    apply (proj1 (filter_In (fun o => rate_lt (rate_dec o) u) best offers)).
    rewrite F. now left. }
  destruct (money_savings_canonical u (rate_dec best) 750 Hok Hb)
    as (cents & Hm & _); [split; [lia | reflexivity] |].
  rewrite Hm.
  set (n := mknote (Fin u) best (Fin (mkdec false (Z.to_N cents) (-2)))
                   (tl (firstn 3 (best :: rest)))).
  destruct (send_notification_contained e uid info n w Hd)
    as (evs & _ & Hall & Hsend).
  exists evs. rewrite Hsend. unfold mark_notified. rewrite R.
  split; [reflexivity |].
  apply (Forall_impl _ (fun ev H => ex_intro _ n H) Hall).
Qed.

Lemma check_users_total (e : env) (offers : list Offer) (data : store) (w : world) :
  Forall well_formed offers ->
  Forall (fun kv => rate_ok (snd kv)) data ->
  (forall uid, delivery_contained e uid) ->
  exists evs,
    check_users e offers data w
    = (Ok (map (fun kv => (fst kv, transition offers (snd kv))) data),
       mkworld (file w) (log w ++ evs)).
Proof.
  intros Hwf Hok Hd. revert w.
  induction data as [|[uid info] rest IH]; intros w.
  - exists []. cbn. rewrite app_nil_r. now destruct w.
  - inversion Hok as [|? ? Hi Hrest]; subst. cbn [snd] in Hi.
    destruct (process_user_total e offers uid info w Hwf Hi (Hd uid))
      as (evs1 & Hp & _).
    destruct (IH Hrest (mkworld (file w) (log w ++ evs1))) as (evs2 & Hc).
    exists (evs1 ++ evs2).
    cbn [check_users map fst snd]. unfold mbind at 1. rewrite Hp.
    unfold mbind at 1. rewrite Hc. cbn [file log]. unfold ret.
    now rewrite app_assoc.
Qed.

(** A pass over a store of canonical rates, with offers fetched and every
    delivery failure absorbed, processes every user and writes the store
    once, at the end. *)
Lemma daily_check_completes
    (e : env) (w : world) (data : store) (offers : list Offer) :
  file w = Some data -> data <> [] ->
  fetch_offers (response e) = Ok offers -> offers <> [] ->
  Forall (fun kv => rate_ok (snd kv)) data ->
  (forall uid, delivery_contained e uid) ->
  exists evs,
    let written :=
      sort_keys (map (fun kv => (fst kv, transition offers (snd kv))) data) in
    daily_check e w
    = (Ok tt, mkworld (Some written) (log w ++ evs ++ [WriteFile written])).
Proof.
  intros Hf Hne Ho Hno Hok Hd.
  destruct (fetch_offers_ranked _ _ Ho) as [Hwf _].
  destruct (check_users_total e offers data w Hwf Hok Hd) as (evs & Hc).
  exists evs. cbv zeta.
  unfold daily_check, mbind, load_data. rewrite Hf.
  destruct data as [|kv rest]; [contradiction |].
  rewrite Ho. destruct offers as [|o os]; [contradiction |].
  rewrite Hc. unfold save_data. cbn [file log].
  now rewrite <- app_assoc.
Qed.

End StoreInvariant.

(** * Further properties of the code *)

(** ** The canonical text of a rate *)

Section CanonicalText.
Import Text.

Lemma digits_val_app (a b : list ascii) :
  digits_val (a ++ b)
  = fold_left (fun acc c => (acc * 10 + digit_val c)%N) b (digits_val a).
Proof. unfold digits_val. apply fold_left_app. Qed.

Lemma last_digits_app (k : nat) (n : Z) (acc : list ascii) :
  last_digits k n acc = last_digits k n [] ++ acc.
Proof.
  revert n acc. induction k as [|k IH]; intros n acc; [reflexivity |].
  cbn [last_digits]. rewrite (IH (n / 10) (digit_char n :: acc)).
  rewrite (IH (n / 10) [digit_char n]). now rewrite <- app_assoc.
Qed.

Lemma digit_val_digit_char (n : Z) : Z.of_N (digit_val (digit_char n)) = n mod 10.
Proof.
  unfold digit_val, digit_char.
  pose proof (Z.mod_pos_bound n 10 ltac:(lia)) as B.
  rewrite N_ascii_embedding by lia. lia.
Qed.

(** The digits printed for [n] denote [n mod 10^k]. *)
Lemma digits_val_last_digits (k : nat) (n : Z) :
  Z.of_N (digits_val (last_digits k n [])) = n mod 10 ^ Z.of_nat k.
Proof.
  revert n. induction k as [|k IH]; intros n.
  - cbn. now rewrite Z.mod_1_r.
  - cbn [last_digits]. rewrite last_digits_app, digits_val_app.
    cbn [fold_left]. rewrite N2Z.inj_add, N2Z.inj_mul, IH, digit_val_digit_char.
    rewrite Nat2Z.inj_succ, Z.pow_succ_r by lia.
    pose proof (pow10_pos (Z.of_nat k) ltac:(lia)).
    rewrite (Z.rem_mul_r n 10 (10 ^ Z.of_nat k)) by lia.
    change (Z.of_N 10) with 10. lia.
Qed.

(** The five-place text of a non-negative coefficient below [10^5]. *)
Lemma format_small (c : N) :
  Z.of_N c < 10 ^ 5 ->
  list_ascii_of_string (format_f 5 (Fin (mkdec false c (-5))))
  = "0"%char :: "."%char :: last_digits 5 (Z.of_N c) [].
Proof.
  intros Hc. unfold format_f. cbn [dneg dcoef].
  change (Z.of_nat 5) with 5. rewrite Z.div_small by lia.
  change (NilZero.string_of_uint (N.to_uint (Z.to_N 0))) with "0"%string.
  cbn [String.append list_ascii_of_string].
  now rewrite list_ascii_of_string_of_list_ascii.
Qed.

(** X2: the text that [setrate] stores for an accepted rate reads back, with
    [Decimal], as the very rate that was parsed. *)
Theorem stored_rate_round_trip (rate_arg : string) (d : Decimal) :
  parse_user_rate rate_arg = Ok d ->
  of_string (format_f 5 d) = Ok d.
Proof.
  rewrite parse_user_rate_eq. cbv zeta.
  destruct (startswith_minus _); [discriminate |].
  destruct (RATE_INPUT_RE_match _) as [frac|] eqn:M; [| discriminate].
  destruct (List.length frac <? 5)%nat eqn:L; [discriminate |].
  apply Nat.ltb_ge in L.
  apply RATE_INPUT_RE_match_strip in M as (Hne & Hd & _).
  intros H. inversion H; subst d. clear H.
  pose proof (digits_val_bound frac Hd) as B.
  assert (Hr : 0 <= Z.of_N (rounded_rate frac) <= 10 ^ 5).
  { unfold rounded_rate.
    pose proof (div_half_up_nonneg (Z.of_N (digits_val frac))
                  (Z.of_nat (List.length frac) - 5) ltac:(lia) ltac:(lia)).
    rewrite Z2N.id by lia. split; [lia |].
    apply div_half_up_le; try lia.
    rewrite <- Z.pow_add_r by lia.
    now replace (5 + (Z.of_nat (List.length frac) - 5))
      with (Z.of_nat (List.length frac)) by lia. }
  revert Hr. generalize (rounded_rate frac). intros c Hc.
  destruct (Z.eq_dec (Z.of_N c) (10 ^ 5)) as [E | E].
  - assert (c = 100000%N) by (change (10 ^ 5) with (Z.of_N 100000) in E; lia).
    subst c. reflexivity.
  - unfold of_string. rewrite format_small by lia.
    destruct (last_digits_spec 5 (Z.of_N c) [] eq_refl) as [Hdig Hlen].
    pose proof (digits_val_last_digits 5 (Z.of_N c)) as Hv.
    set (ds := last_digits 5 (Z.of_N c) []) in *.
    assert (Hds : ds <> []) by (destruct ds; [discriminate Hlen | discriminate]).
    rewrite (of_chars_rate _ ds (rate_text_stripped ds Hds Hdig) Hds Hdig).
    rewrite Hlen. change (- Z.of_nat (5 + List.length (@nil ascii))) with (-5).
    change (Z.of_nat 5) with 5 in Hv. rewrite Z.mod_small in Hv by lia.
    apply N2Z.inj in Hv. now rewrite Hv.
Qed.

Lemma stored_rate_round_trip_witness :
  of_string (format_f 5 (Fin (mkdec false 12346 (-5))))
  = Ok (Fin (mkdec false 12346 (-5))).
Proof.
  exact (stored_rate_round_trip "0.123455" (Fin (mkdec false 12346 (-5))) eq_refl).
Defined.

(** X3: a rate below 1 that the strict parser returned is a fixed point:
    its stored text is accepted again and parses to the same rate.  The
    text "1.00000" of a rate rounded up to 1 is rejected by the format
    rule. *)
Theorem parse_user_rate_stored_text (rate_arg : string) (d : Decimal) :
  parse_user_rate rate_arg = Ok d ->
  (d <> Fin (mkdec false 100000 (-5)) ->
   parse_user_rate (format_f 5 d) = Ok d) /\
  (d = Fin (mkdec false 100000 (-5)) ->
   parse_user_rate (format_f 5 d) = Raise (RateParseError BadFormat)).
Proof.
  intros Hp. split; [| intros ->; reflexivity].
  revert Hp. rewrite parse_user_rate_eq. cbv zeta.
  destruct (startswith_minus _); [discriminate |].
  destruct (RATE_INPUT_RE_match _) as [frac|] eqn:M; [| discriminate].
  destruct (List.length frac <? 5)%nat eqn:L; [discriminate |].
  apply Nat.ltb_ge in L.
  apply RATE_INPUT_RE_match_strip in M as (Hne & Hd & _).
  intros H. inversion H; subst d. clear H.
  pose proof (digits_val_bound frac Hd) as B.
  assert (Hr : 0 <= Z.of_N (rounded_rate frac) <= 10 ^ 5).
  { unfold rounded_rate.
    pose proof (div_half_up_nonneg (Z.of_N (digits_val frac))
                  (Z.of_nat (List.length frac) - 5) ltac:(lia) ltac:(lia)).
    rewrite Z2N.id by lia. split; [lia |].
    apply div_half_up_le; try lia.
    rewrite <- Z.pow_add_r by lia.
    now replace (5 + (Z.of_nat (List.length frac) - 5))
      with (Z.of_nat (List.length frac)) by lia. }
  revert Hr. generalize (rounded_rate frac). intros c Hc Hne1.
  assert (Hlt : Z.of_N c < 10 ^ 5).
  { destruct (Z.eq_dec (Z.of_N c) (10 ^ 5)) as [E | E]; [| lia].
    exfalso. apply Hne1. do 2 f_equal.
    change (10 ^ 5) with (Z.of_N 100000) in E. lia. }
  rewrite parse_user_rate_eq. cbv zeta. rewrite format_small by exact Hlt.
  destruct (last_digits_spec 5 (Z.of_N c) [] eq_refl) as [Hdig Hlen].
  pose proof (digits_val_last_digits 5 (Z.of_N c)) as Hv.
  set (ds := last_digits 5 (Z.of_N c) []) in *.
  assert (Hds : ds <> []) by (destruct ds; [discriminate Hlen | discriminate]).
  rewrite (rate_text_stripped ds Hds Hdig).
  rewrite (RATE_INPUT_RE_match_digits ds Hds Hdig).
  cbn [startswith_minus]. rewrite Hlen. cbn [Nat.add List.length Nat.ltb Nat.leb].
  unfold rounded_rate. rewrite Hlen.
  change (Z.of_nat (5 + List.length (@nil ascii)) - 5) with 0.
  rewrite div_half_up_0, N2Z.id.
  change (Z.of_nat 5) with 5 in Hv. rewrite Z.mod_small in Hv by lia.
  apply N2Z.inj in Hv. now rewrite Hv.
Qed.

Lemma parse_user_rate_stored_text_witness :
  parse_user_rate (format_f 5 (Fin (mkdec false 12346 (-5))))
  = Ok (Fin (mkdec false 12346 (-5))) /\
  parse_user_rate (format_f 5 (Fin (mkdec false 100000 (-5))))
  = Raise (RateParseError BadFormat).
Proof.
  split.
  - apply (proj1 (parse_user_rate_stored_text "0.123455"
                    (Fin (mkdec false 12346 (-5))) eq_refl)).
    discriminate.
  - exact (proj2 (parse_user_rate_stored_text "0.999995"
                    (Fin (mkdec false 100000 (-5))) eq_refl) eq_refl).
Defined.

End CanonicalText.

(** ** Saving and loading *)

Section SaveLoad.

Lemma string_ltb_asym (a b : string) : String.ltb a b = true -> String.ltb b a = false.
Proof.
  unfold String.ltb. rewrite (String.compare_antisym b a).
  destruct (String.compare a b); simpl; congruence.
Qed.

Lemma insert_key_perm (x : Z * user_info) (l : store) :
  Permutation (x :: l) (insert_key x l).
Proof.
  induction l as [|y l IH]; simpl; [reflexivity |].
  destruct (String.ltb _ _); [| reflexivity].
  rewrite perm_swap. now constructor.
Qed.

Lemma sort_keys_perm (data : store) : Permutation data (sort_keys data).
Proof.
  induction data as [|x l IH]; simpl; [reflexivity |].
  rewrite <- insert_key_perm. now constructor.
Qed.

Lemma insert_key_sorted (x : Z * user_info) (l : store) :
  Sorted key_le l -> Sorted key_le (insert_key x l).
Proof.
  induction 1 as [|y l Hs IH Hh]; simpl; [repeat constructor |].
  destruct (String.ltb (key_of (fst y)) (key_of (fst x))) eqn:E.
  - constructor; [exact IH |].
    destruct l as [|z l]; simpl.
    + constructor. unfold key_le. now apply string_ltb_asym.
    + destruct (String.ltb (key_of (fst z)) (key_of (fst x)));
        constructor; [now inversion Hh | unfold key_le; now apply string_ltb_asym].
  - constructor; [now constructor |]. constructor. exact E.
Qed.

Lemma sort_keys_sorted (data : store) : Sorted key_le (sort_keys data).
Proof.
  induction data as [|x l IH]; simpl; [constructor |].
  now apply insert_key_sorted.
Qed.

Lemma sort_keys_fix (data : store) : Sorted key_le data -> sort_keys data = data.
Proof.
  induction 1 as [|x l Hs IH Hh]; [reflexivity |].
  cbn [sort_keys fold_right]. fold (sort_keys l). rewrite IH.
  destruct Hh as [|y l Hxy]; [reflexivity |].
  cbn [insert_key]. unfold key_le in Hxy. now rewrite Hxy.
Qed.

(** X4: [save_data] followed by [load_data] gives back what every key
    mapped to; the file holds the same items with the keys in ascending
    string order, and saving what was loaded writes the same file again. *)
Theorem save_load_round_trip (data : store) (w : world) :
  let w' := snd (save_data data w) in
  let loaded := fst (load_data w') in
  (exists written, loaded = Ok written /\
     Permutation data written /\ Sorted key_le written /\
     (forall uid, dict_get uid written = dict_get uid data) /\
     file (snd (save_data written w')) = file w') /\
  log w' = log w ++ [WriteFile (sort_keys data)].
Proof.
  cbv zeta. unfold save_data, load_data. cbn [snd fst file log].
  split; [| reflexivity].
  exists (sort_keys data). repeat split.
  - apply sort_keys_perm.
  - apply sort_keys_sorted.
  - intros uid. apply dict_get_sort_keys.
  - now rewrite (sort_keys_fix _ (sort_keys_sorted data)).
Qed.

Lemma dict_get_set_other (uid k : Z) (v : user_info) (data : store) :
  k <> uid -> dict_get uid (dict_set k v data) = dict_get uid data.
Proof.
  intros Hk. induction data as [|[k' w] rest IH]; simpl.
  - destruct (Z.eqb_spec k uid); [contradiction | reflexivity].
  - destruct (Z.eqb_spec k' k) as [-> | Hk']; simpl.
    + destruct (Z.eqb_spec k uid); [contradiction | reflexivity].
    + destruct (k' =? uid); [reflexivity | exact IH].
Qed.

End SaveLoad.

(** ** The commands *)

Section Commands.

(** Every outcome of the strict parser is a rate or a [RateParseError]. *)
Lemma parse_user_rate_outcome (raw : string) :
  (exists d, parse_user_rate raw = Ok d) \/
  (exists k, parse_user_rate raw = Raise (RateParseError k)).
Proof.
  rewrite parse_user_rate_eq. cbv zeta.
  destruct (Text.startswith_minus _); [right; eauto |].
  destruct (RATE_INPUT_RE_match _); [| right; eauto].
  destruct (_ <? _)%nat; [right | left]; eauto.
Qed.

(** X5: [setrate] with the answer of [ctx.reply] explicit.  No failure of
    the parser leaves the command: the command ends as its one reply ends.
    A rejected text is answered with its error and the file is not
    written.  An accepted text is written once, before the reply, so the
    file holds the new rate even when the confirmation raises; the file is
    the one [setrate] leaves.  With a delivered reply the command is
    [setrate]. *)
Theorem setrate_replying_outcome
    (answer : reply_text -> result unit)
    (ctx : context) (rate_arg : string) (w : world) :
  ((exists k,
       parse_user_rate rate_arg = Raise (RateParseError k) /\
       setrate_replying answer ctx rate_arg w
       = (answer (ReplyError k),
          mkworld (file w) (log w ++ [Reply (ReplyError k)]))) \/
   (exists d written,
       parse_user_rate rate_arg = Ok d /\
       setrate_replying answer ctx rate_arg w
       = (answer (ReplySaved (format_f 5 d)),
          mkworld (Some written)
                  (log w ++ [WriteFile written;
                             Reply (ReplySaved (format_f 5 d))])) /\
       file (snd (setrate ctx rate_arg w)) = Some written)) /\
  setrate_replying (fun _ => Ok tt) ctx rate_arg w = setrate ctx rate_arg w.
Proof.
  split.
  - unfold setrate_replying, setrate.
    destruct (parse_user_rate_outcome rate_arg) as [[d Hd] | [k Hk]].
    + right. rewrite Hd. eexists. eexists. split; [reflexivity |].
      unfold reply_with, mbind, lift, load_data, save_data, emit.
      cbn [file log snd]. split; [| reflexivity].
      now rewrite <- app_assoc.
    + left. rewrite Hk. exists k. split; reflexivity.
  - unfold setrate_replying, setrate.
    destruct (parse_user_rate rate_arg) as [d | [k | | | | |]]; reflexivity.
Qed.

Lemma setrate_file (ctx : context) (rate_arg : string) (w : world) :
  file (snd (setrate ctx rate_arg w)) = file w \/
  exists d info,
    parse_user_rate rate_arg = Ok d /\
    file (snd (setrate ctx rate_arg w))
    = Some (sort_keys (dict_set (author_id ctx) info
                         (match file w with Some data => data | None => [] end))).
Proof.
  unfold setrate.
  destruct (parse_user_rate rate_arg) as [d | [k| | | | |]] eqn:P;
    try (left; reflexivity).
  right. eexists. eexists. split; [reflexivity |].
  unfold mbind, load_data, save_data, emit. reflexivity.
Qed.

Lemma setrate_other (ctx : context) (rate_arg : string) (w : world) (uid : Z) :
  uid <> author_id ctx ->
  stored (snd (setrate ctx rate_arg w)) uid = stored w uid.
Proof.
  intros Hu. unfold stored.
  destruct (setrate_file ctx rate_arg w) as [-> | (d & info & _ & ->)];
    [reflexivity |].
  rewrite dict_get_sort_keys. apply dict_get_set_other. congruence.
Qed.

(** X6: [setrate] changes the record of its author only: what the file
    maps any other user to is what it was. *)
Theorem setrate_other_users
    (ctx : context) (rate_arg : string) (w : world) (uid : Z) :
  uid <> author_id ctx ->
  stored (snd (setrate ctx rate_arg w)) uid = stored w uid.
Proof. apply setrate_other. Qed.

Lemma setrate_other_users_witness :
  stored (snd (setrate (mkctx 2 7 None) "0.11111" two_users)) 1
  = stored two_users 1.
Proof. apply setrate_other_users. discriminate. Defined.

(** X7: after a successful [setrate], the [rate] command of the same user
    answers with the canonical five-place text of the parsed rate, and
    changes nothing. *)
Theorem showrate_after_setrate
    (ctx : context) (rate_arg : string) (d : Decimal) (w : world) :
  parse_user_rate rate_arg = Ok d ->
  let w' := snd (setrate ctx rate_arg w) in
  showrate ctx w' = (Ok (RateStored (format_f 5 d)), w').
Proof.
  intros Hp w'.
  destruct (setrate_stored ctx rate_arg d w Hp) as (data' & Hf & Hg).
  fold w' in Hf. unfold showrate, mbind, load_data. rewrite Hf, Hg.
  reflexivity.
Qed.

Lemma showrate_after_setrate_witness :
  showrate (mkctx 42 7 None)
           (snd (setrate (mkctx 42 7 None) "0.123455" (mkworld None [])))
  = (Ok (RateStored "0.12346"),
     snd (setrate (mkctx 42 7 None) "0.123455" (mkworld None []))).
Proof.
  exact (showrate_after_setrate (mkctx 42 7 None) "0.123455"
           (Fin (mkdec false 12346 (-5))) (mkworld None []) eq_refl).
Defined.

End Commands.

(** ** The feed *)

Section Feed.

(** The lenient parser raises exactly on a rate text that reads as a NaN. *)
Lemma parse_offer_rate_raises_nan_helper (obj : raw_offer) :
  (exists ex, parse_offer_rate obj = Raise ex)
  <-> (exists v s, rate_field obj = Some v /\ of_string (py_str v) = Ok (NaN s)).
Proof.
  unfold parse_offer_rate. fold (rate_field obj). split.
  - intros [ex H].
    destruct (rate_field obj) as [v|]; [| discriminate].
    destruct (of_string (py_str v)) as [d|] eqn:P; [| discriminate].
    destruct d as [x | s | s].
    + exfalso.
      destruct (lt (Fin x) (Fin (of_int 0))) as [[|]|] eqn:H0; cbn [bind] in H;
        try discriminate; [| unfold lt, compare in H0;
                              destruct (fcompare x (of_int 0)); discriminate].
      destruct (ge (Fin x) (Fin (of_int 1))) as [[|]|] eqn:H1; cbn [bind] in H;
        try discriminate; [| unfold ge, compare in H1;
                              destruct (fcompare x (of_int 1)); discriminate].
      destruct (quantize_unit_interval x H0 H1) as (y & Hq & _).
      rewrite Hq in H. discriminate.
    + exfalso. destruct s; discriminate.
    + eauto.
  - intros (v & s & -> & ->). exists InvalidOperation. reflexivity.
Qed.

(** X8: the lenient parser raises for one kind of record only: one whose
    rate text [Decimal] reads as a NaN.  For every other record it returns
    a rate or none. *)
Theorem parse_offer_rate_raises_iff_nan (obj : raw_offer) :
  (exists ex, parse_offer_rate obj = Raise ex)
  <-> (exists v s, rate_field obj = Some v /\ of_string (py_str v) = Ok (NaN s)).
Proof. apply parse_offer_rate_raises_nan_helper. Qed.

Lemma parse_offer_rate_raises_iff_nan_witness :
  exists ex, parse_offer_rate raw_nan = Raise ex.
Proof.
  apply (proj2 (parse_offer_rate_raises_iff_nan raw_nan)).
  exists (SStr "NaN"), false. split; reflexivity.
Defined.

(** Reading a rate is the only step of the normaliser that can fail. *)
Lemma normalize_ok (raws : list raw_offer) :
  Forall (fun r => exists d, parse_offer_rate r = Ok d) raws ->
  exists offers, normalize raws = Ok offers.
Proof.
  induction 1 as [|r raws [d Hd] _ [offers IH]]; [now exists [] |].
  cbn [normalize]. rewrite Hd, IH. cbn [bind].
  destruct d; eauto.
Qed.

Lemma normalize_in (raws : list raw_offer) (offers : list Offer) (o : Offer) :
  normalize raws = Ok offers ->
  (In o offers <->
   exists r d, In r raws /\ parse_offer_rate r = Ok (Some d) /\ o = make_offer r d).
Proof.
  revert offers. induction raws as [|r raws IH]; intros offers H.
  - inversion H. split; [contradiction | intros (? & ? & [] & _)].
  - cbn [normalize] in H.
    destruct (parse_offer_rate r) as [rd|] eqn:P; cbn [bind] in H; [| discriminate].
    destruct (normalize raws) as [tl|]; cbn [bind] in H; [| discriminate].
    specialize (IH tl eq_refl).
    destruct rd as [d|]; inversion H; subst; clear H.
    + split.
      * intros [<- | Hin];
          [exists r, d; split; [now left | split; [exact P | reflexivity]] |].
        apply IH in Hin as (r' & d' & Hr & Hp & ->).
        exists r', d'. split; [now right | split; [exact Hp | reflexivity]].
      * intros (r' & d' & [<- | Hr] & Hp & ->).
        -- rewrite P in Hp. inversion Hp. now left.
        -- right. apply IH. eauto.
    + rewrite IH. split.
      * intros (r' & d' & Hr & Hp & ->).
        exists r', d'. split; [now right | split; [exact Hp | reflexivity]].
      * intros (r' & d' & [<- | Hr] & Hp & ->); [congruence | eauto].
Qed.

(** The normaliser keeps the records with a rate, one offer for each, in
    feed order. *)
Lemma normalize_kept (raws : list raw_offer) (offers : list Offer) :
  normalize raws = Ok offers -> offers = kept_offers raws.
Proof.
  revert offers. induction raws as [|r raws IH]; intros offers H.
  - now inversion H.
  - cbn [normalize kept_offers] in *.
    destruct (parse_offer_rate r) as [rd|]; cbn [bind] in H; [| discriminate].
    destruct (normalize raws) as [tl|]; cbn [bind] in H; [| discriminate].
    rewrite <- (IH tl eq_refl).
    destruct rd; now inversion H.
Qed.

(** X9: a successful [fetch_offers] returns the ranking of the offers built
    from the records of [results] and [compareResults] that have a rate:
    one offer for every such record, counted with repetitions, so that
    none is dropped and none is invented; each carries a canonical
    [rate_dec] and its five-place text as [rate_str]. *)
Theorem fetch_offers_content (data : feed) (offers : list Offer) :
  fetch_offers (Ok data) = Ok offers ->
  let raws := or_nil (results data) ++ or_nil (compareResults data) in
  offers = sort_by_rate (kept_offers raws) /\
  Permutation (kept_offers raws) offers /\
  List.length offers = List.length (kept_offers raws) /\
  (forall o,
      In o offers <->
      exists r d,
        In r raws /\ parse_offer_rate r = Ok (Some d) /\ o = make_offer r d) /\
  Forall well_formed offers.
Proof.
  intros H raws.
  pose proof (proj1 (fetch_offers_ranked _ _ H)) as Hwf.
  unfold fetch_offers in H. cbn [bind] in H. fold raws in H.
  destruct (normalize raws) as [l|] eqn:N; cbn [bind] in H; [| discriminate].
  inversion H; subst. rewrite <- (normalize_kept raws l N).
  split; [reflexivity | split; [apply sort_by_rate_perm | split; [| split]]].
  - symmetry. apply Permutation_length, sort_by_rate_perm.
  - intros o. rewrite <- (normalize_in _ l o N).
    split; intros Hin.
    + now apply (Permutation_in _ (Permutation_sym (sort_by_rate_perm l))).
    + now apply (Permutation_in _ (sort_by_rate_perm l)).
  - exact Hwf.
Qed.

(** A feed that repeats a record: both copies are kept. *)
Lemma fetch_offers_content_witness :
  [offer_B; offer_B]
  = sort_by_rate (kept_offers [raw_rated "B" "0.10"; raw_rated "B" "0.10"]) /\
  Permutation (kept_offers [raw_rated "B" "0.10"; raw_rated "B" "0.10"])
              [offer_B; offer_B] /\
  List.length [offer_B; offer_B]
  = List.length (kept_offers [raw_rated "B" "0.10"; raw_rated "B" "0.10"]) /\
  (forall o,
      In o [offer_B; offer_B] <->
      exists r d,
        In r [raw_rated "B" "0.10"; raw_rated "B" "0.10"] /\
        parse_offer_rate r = Ok (Some d) /\ o = make_offer r d) /\
  Forall well_formed [offer_B; offer_B].
Proof.
  exact (fetch_offers_content
           (mkfeed (Some [raw_rated "B" "0.10"]) (Some [raw_rated "B" "0.10"]))
           [offer_B; offer_B] eq_refl).
Defined.

Lemma normalize_raise (raws : list raw_offer) (ex : exn) :
  normalize raws = Raise ex ->
  exists r v s,
    In r raws /\ rate_field r = Some v /\ of_string (py_str v) = Ok (NaN s).
Proof.
  induction raws as [|r raws IH]; [discriminate |].
  cbn [normalize].
  destruct (parse_offer_rate r) as [rd|ex'] eqn:P; cbn [bind].
  - destruct (normalize raws) as [tl|ex'']; cbn [bind];
      [destruct rd; discriminate |].
    intros H. destruct (IH H) as (r' & v & s & Hin & Hv & Hs).
    exists r', v, s. split; [now right | now split].
  - intros _.
    destruct (proj1 (parse_offer_rate_raises_nan_helper r) (ex_intro _ ex' P))
      as (v & s & Hv & Hs).
    exists r, v, s. split; [now left | now split].
Qed.

(** X10: the fetch fails in two cases only: the browser request failed, or
    a record of the feed has a rate text that reads as a NaN. *)
Theorem fetch_offers_failure (response : result feed) (ex : exn) :
  fetch_offers response = Raise ex ->
  response = Raise ex \/
  exists data r v s,
    response = Ok data /\
    In r (or_nil (results data) ++ or_nil (compareResults data)) /\
    rate_field r = Some v /\ of_string (py_str v) = Ok (NaN s).
Proof.
  unfold fetch_offers. destruct response as [data | e]; cbn [bind];
    [| intros H; inversion H; now left].
  intros H. right. exists data.
  destruct (normalize _) as [l|ex'] eqn:N; cbn [bind] in H; [discriminate |].
  destruct (normalize_raise _ _ N) as (r & v & s & Hin & Hv & Hs).
  exists r, v, s. now repeat split.
Qed.

Lemma fetch_offers_failure_witness :
  Ok (mkfeed (Some [raw_nan]) None) = Raise InvalidOperation \/
  exists data r v s,
    Ok (mkfeed (Some [raw_nan]) None) = Ok data /\
    In r (or_nil (results data) ++ or_nil (compareResults data)) /\
    rate_field r = Some v /\ of_string (py_str v) = Ok (NaN s).
Proof.
  exact (fetch_offers_failure (Ok (mkfeed (Some [raw_nan]) None))
           InvalidOperation eq_refl).
Defined.

End Feed.

(** ** The ranking is determined *)

Section RankingUnique.

(** X11: the ranking is the only arrangement of the offers that is
    ascending in [rate_dec] and keeps the offers of each rate in their
    feed order. *)
Theorem sort_by_rate_unique (l l' : list Offer) :
  StronglySorted offer_le l' ->
  (forall r, filter (fun o => rate_eqb (rate_dec o) r) l'
             = filter (fun o => rate_eqb (rate_dec o) r) l) ->
  l' = sort_by_rate l.
Proof.
  intros Hs Hst. apply sorted_stable_unique.
  - exact Hs.
  - apply Sorted_StronglySorted; [exact offer_le_trans | apply sort_by_rate_sorted].
  - intros r. now rewrite Hst, sort_by_rate_stable.
Qed.

Lemma sort_by_rate_unique_witness :
  [make_offer (raw_rated "b" "0.10") (mkdec false 10000 (-5));
   make_offer (raw_rated "a" "0.15") (mkdec false 15000 (-5))]
  = sort_by_rate
      [make_offer (raw_rated "b" "0.10") (mkdec false 10000 (-5));
       make_offer (raw_rated "a" "0.15") (mkdec false 15000 (-5))].
Proof.
  apply sort_by_rate_unique.
  - repeat constructor. unfold offer_le, fle. vm_compute. discriminate.
  - intros r. reflexivity.
Defined.

End RankingUnique.

(** ** What a pass never does *)

Section PassKeeps.

Lemma send_notification_file
    (e : env) (uid : Z) (info : user_info) (n : notification) (w : world) :
  file (snd (send_notification e uid info n w)) = file w.
Proof.
  unfold send_notification, mbind, emit, ret, raise.
  destruct (match get (notify_channel_id info) with
            | Some c => if c =? 0 then None
                        else if is_text_channel e c then Some c else None
            | None => None
            end) as [c|]; cbn [file log].
  - destruct (channel_send e c uid n) as [[]|[k| | | | |]]; cbn [snd file];
      try reflexivity;
      destruct (user_send e uid n) as [[]|[k'| | | | |]]; reflexivity.
  - destruct (user_send e uid n) as [[]|[k'| | | | |]]; reflexivity.
Qed.

Lemma cheaper_than_incl (offers better : list Offer) (d : Decimal) :
  cheaper_than offers d = Ok better -> incl better offers.
Proof.
  revert better. induction offers as [|o rest IH]; intros better H.
  - inversion H. apply incl_refl.
  - cbn [cheaper_than] in H.
    destruct (lt (Fin (rate_dec o)) d) as [b|]; cbn [bind] in H; [| discriminate].
    destruct (cheaper_than rest d) as [tl|]; cbn [bind] in H; [| discriminate].
    inversion H; subst. specialize (IH tl eq_refl).
    destruct b.
    + intros x [<- | Hx]; [now left | right; now apply IH].
    + intros x Hx. right. now apply IH.
Qed.

(** The loop body, whatever the collaborators answer: the file is not
    touched, and a record it returns is the old one or the old one marked
    with an offer of the pass. *)
Lemma process_user_keeps
    (e : env) (offers : list Offer) (uid : Z) (info : user_info) (w : world) :
  file (snd (process_user e offers uid info w)) = file w /\
  forall info', fst (process_user e offers uid info w) = Ok info' ->
                kept_or_marked offers info info'.
Proof.
  assert (Hsame : forall i : user_info,
            Ok (A:=user_info) info = Ok i -> kept_or_marked offers info i)
    by (intros i H; left; now inversion H).
  unfold process_user, mbind, lift, ret.
  destruct (rate info) as [r|] eqn:R; [| split; [reflexivity | apply Hsame]].
  destruct (of_string r) as [d|ex]; [| split; [reflexivity | apply Hsame]].
  destruct (cheaper_than offers d) as [better|ex] eqn:C;
    [| split; [reflexivity | intros ? H0; discriminate H0]].
  destruct better as [|best rest]; [split; [reflexivity | apply Hsame] |].
  cbv zeta.
  destruct (opt_eqb _ _ && opt_eqb _ _); [split; [reflexivity | apply Hsame] |].
  destruct (money_savings_per_month d (Fin (rate_dec best)) 750) as [sv|ex];
    [| split; [reflexivity | intros ? H0; discriminate H0]].
  set (n := mknote d best sv (tl (firstn 3 (best :: rest)))).
  pose proof (send_notification_file e uid info n w) as Hf.
  destruct (send_notification e uid info n w) as [[[]|ex] w1]; cbn [fst snd] in *.
  - split; [exact Hf |]. intros i H. inversion H; subst. right.
    exists best. split; [| unfold mark_notified; now rewrite R].
    apply (cheaper_than_incl _ _ _ C). now left.
  - split; [exact Hf | intros ? H0; discriminate H0].
Qed.

Lemma mbind_eq {A B} (m : M A) (k : A -> M B) (w : world) :
  mbind m k w
  = match m w with
    | (Ok a, w') => k a w'
    | (Raise ex, w') => (Raise ex, w')
    end.
Proof. reflexivity. Qed.

Lemma check_users_keeps (e : env) (offers : list Offer) (data : store) (w : world) :
  file (snd (check_users e offers data w)) = file w /\
  forall data', fst (check_users e offers data w) = Ok data' ->
    Forall2 (fun kv kv' => fst kv' = fst kv /\
                           kept_or_marked offers (snd kv) (snd kv')) data data'.
Proof.
  revert w. induction data as [|[uid info] rest IH]; intros w.
  - split; [reflexivity |]. intros d H. inversion H. constructor.
  - cbn [check_users]. rewrite mbind_eq.
    destruct (process_user_keeps e offers uid info w) as [Hf Hk].
    destruct (process_user e offers uid info w) as [[info'|ex] w1];
      cbn [fst snd] in *; [| split; [exact Hf | intros ? H0; discriminate H0]].
    rewrite mbind_eq.
    destruct (IH w1) as [Hf' Hk'].
    destruct (check_users e offers rest w1) as [[rest'|ex] w2];
      cbn [fst snd] in *; [| split; [congruence | intros ? H0; discriminate H0]].
    unfold ret. cbn [fst snd]. split; [congruence |].
    intros d H. inversion H; subst. constructor; [| now apply Hk'].
    split; [reflexivity | now apply Hk].
Qed.

Lemma dict_get_Forall2 (R : user_info -> user_info -> Prop) (uid : Z) (a b : store) :
  Forall2 (fun kv kv' => fst kv' = fst kv /\ R (snd kv) (snd kv')) a b ->
  match dict_get uid a, dict_get uid b with
  | Some i, Some i' => R i i'
  | None, None => True
  | _, _ => False
  end.
Proof.
  induction 1 as [|[k v] [k' v'] a b [Hk Hr] _ IH]; [exact I |].
  cbn [fst snd] in *. subst k'. cbn [dict_get].
  destruct (k =? uid); [exact Hr | exact IH].
Qed.

Lemma daily_check_file (e : env) (w : world) (data : store) :
  fst (load_data w) = Ok data ->
  file (snd (daily_check e w)) = file w \/
  exists offers data',
    fetch_offers (response e) = Ok offers /\
    file (snd (daily_check e w)) = Some (sort_keys data') /\
    Forall2 (fun kv kv' => fst kv' = fst kv /\
                           kept_or_marked offers (snd kv) (snd kv'))
            data data'.
Proof.
  intros L. unfold daily_check. rewrite mbind_eq.
  destruct (load_data w) as [r w0] eqn:L'. cbn [fst] in L. subst r.
  assert (w0 = w) by (unfold load_data in L'; now inversion L'). subst w0.
  destruct data as [|kv rest]; [now left |].
  destruct (fetch_offers (response e)) as [[|o os]|ex] eqn:F; try (now left).
  rewrite mbind_eq.
  destruct (check_users_keeps e (o :: os) (kv :: rest) w) as [Hf Hk].
  destruct (check_users e (o :: os) (kv :: rest) w) as [[data'|ex] w1];
    cbn [fst snd] in *.
  - right. exists (o :: os), data'.
    split; [reflexivity | split; [reflexivity | now apply Hk]].
  - now left.
Qed.

(** What [daily_check] leaves in the file for a user, against what was
    there, whatever the collaborators answer. *)
Lemma daily_check_keeps (e : env) (w : world) (uid : Z) :
  stored (snd (daily_check e w)) uid = stored w uid \/
  exists offers info info',
    fetch_offers (response e) = Ok offers /\
    stored w uid = Some info /\
    stored (snd (daily_check e w)) uid = Some info' /\
    kept_or_marked offers info info'.
Proof.
  unfold stored.
  destruct (daily_check_file e w _ eq_refl)
    as [-> | (offers & data' & F & -> & H2)]; [now left |].
  rewrite dict_get_sort_keys.
  pose proof (dict_get_Forall2 (kept_or_marked offers) uid _ _ H2) as H.
  destruct (dict_get uid _) as [i|], (dict_get uid data') as [i'|];
    try contradiction; [| now left].
  right. exists offers, i, i'. now repeat split.
Qed.

End PassKeeps.

(** ** Passes, seen from the file *)

Section PassProperties.

(** X12: whatever the feed and the Discord client answer, and whether the
    pass completes or not, [daily_check] adds no user to the file and
    removes none, and leaves every rate and remembered channel as it was;
    a record it changes is marked with an offer of this fetch. *)
Theorem daily_check_subscriptions (e : env) (w : world) (uid : Z) :
  match stored w uid, stored (snd (daily_check e w)) uid with
  | Some info, Some info' =>
      rate info' = rate info /\
      notify_channel_id info' = notify_channel_id info /\
      notify_guild_id info' = notify_guild_id info /\
      (info' = info \/
       exists offers best,
         fetch_offers (response e) = Ok offers /\ In best offers /\
         dedup_state info' = (Some (id best), Some (rate_str best)))
  | None, None => True
  | _, _ => False
  end.
Proof.
  destruct (daily_check_keeps e w uid)
    as [-> | (offers & info & info' & F & -> & -> & [-> | (best & Hin & ->)])].
  - destruct (stored w uid); [| exact I]. repeat split. now left.
  - repeat split. now left.
  - repeat split. right. exists offers, best. now repeat split.
Qed.

(** X13: the store invariant.  A file in which every record has a rate
    that [Decimal] reads as a canonical rate stays so under any [setrate],
    accepted or rejected, and under any [daily_check], completed or not; a
    missing file satisfies it.  In particular the rate an accepted
    [setrate] stores is readable and canonical. *)
Theorem store_canonical_invariant
    (e : env) (ctx : context) (rate_arg : string) (w : world) :
  (file w = None -> store_canonical w) /\
  (store_canonical w ->
   store_canonical (snd (setrate ctx rate_arg w)) /\
   store_canonical (snd (daily_check e w))).
Proof.
  split; [| intros Hok; split].
  - intros Hf uid info H. unfold stored in H. rewrite Hf in H. discriminate H.
  - intros uid info Hs.
    destruct (Z.eq_dec uid (author_id ctx)) as [-> | Hne].
    + destruct (parse_user_rate_outcome rate_arg) as [[d Hd] | [k Hk]].
      * destruct (setrate_stored ctx rate_arg d w Hd) as (data' & Hf & Hg).
        destruct (stored_rate_ok rate_arg d Hd) as (u & Hu & Hc).
        unfold stored in Hs. rewrite Hf, Hg in Hs. inversion Hs; subst.
        exists (format_f 5 d), u. now repeat split.
      * apply (Hok (author_id ctx)). rewrite <- Hs.
        unfold stored, setrate. now rewrite Hk.
    + apply (Hok uid). now rewrite <- (setrate_other ctx rate_arg w uid Hne).
  - intros uid info' Hs.
    destruct (daily_check_keeps e w uid)
      as [Heq | (offers & info & i' & _ & Hw & Hw' & [-> | (best & _ & ->)])].
    + apply (Hok uid). now rewrite <- Heq.
    + rewrite Hw' in Hs. inversion Hs; subst. now apply (Hok uid).
    + rewrite Hw' in Hs. inversion Hs; subst.
      destruct (Hok uid info Hw) as (r & u & Hr & Hu & Hc).
      exists r, u. now repeat split.
Qed.

Lemma store_canonical_invariant_witness :
  store_canonical (mkworld None []) /\
  store_canonical (snd (setrate (mkctx 2 7 None) "0.999995" two_users)) /\
  store_canonical (snd (daily_check (failing_env Forbidden) two_users)).
Proof.
  split.
  - exact (proj1 (store_canonical_invariant (failing_env Forbidden)
                    (mkctx 2 7 None) "0.999995" (mkworld None [])) eq_refl).
  - apply (proj2 (store_canonical_invariant (failing_env Forbidden)
                    (mkctx 2 7 None) "0.999995" two_users)).
    intros uid info H. unfold stored, two_users in H. cbn [file dict_get] in H.
    exists "0.20000"%string, (mkdec false 20000 (-5)).
    destruct (1 =? uid); [inversion H; now repeat split |].
    destruct (2 =? uid); [inversion H; now repeat split | discriminate H].
Defined.

(** A record the pass has settled is left alone by the next pass over the
    same offers: nothing is sent for it, whatever the client would answer. *)
Lemma process_user_settled
    (e : env) (offers : list Offer) (uid : Z) (info : user_info) (w : world) :
  rate_ok info ->
  process_user e offers uid (transition offers info) w
  = (Ok (transition offers info), w).
Proof.
  unfold rate_ok, transition. intros Hok.
  destruct (rate info) as [r|] eqn:R;
    [| unfold process_user; now rewrite R].
  destruct (of_string r) as [[u|s|s]|ex] eqn:P; try contradiction;
    [| unfold process_user; now rewrite R, P].
  destruct (filter (fun o => rate_lt (rate_dec o) u) offers) as [|best rest] eqn:F.
  - unfold process_user, mbind, lift. now rewrite R, P, cheaper_than_filter, F.
  - destruct (already_notified info best) eqn:A.
    + unfold process_user, mbind, lift. rewrite R, P, cheaper_than_filter, F.
      cbv zeta. fold (already_notified info best). now rewrite A.
    + unfold process_user, mbind, lift, mark_notified. cbn [rate].
      rewrite R, P, cheaper_than_filter, F.
      cbv zeta. cbn [last_notified_offer_id last_notified_rate get opt_eqb].
      now rewrite !String.eqb_refl.
Qed.

Lemma check_users_settled (e : env) (offers : list Offer) (data : store) (w : world) :
  Forall (fun kv => rate_ok (snd kv)) data ->
  check_users e offers (map (fun kv => (fst kv, transition offers (snd kv))) data) w
  = (Ok (map (fun kv => (fst kv, transition offers (snd kv))) data), w).
Proof.
  induction 1 as [|[uid info] rest Hi _ IH]; [reflexivity |].
  cbn [map fst snd check_users]. rewrite mbind_eq.
  rewrite (process_user_settled e offers uid info w Hi).
  rewrite mbind_eq, IH. reflexivity.
Qed.

Lemma insert_key_map (f : user_info -> user_info) (x : Z * user_info) (l : store) :
  insert_key (fst x, f (snd x)) (map (fun kv => (fst kv, f (snd kv))) l)
  = map (fun kv => (fst kv, f (snd kv))) (insert_key x l).
Proof.
  induction l as [|y l IH]; [reflexivity |].
  cbn [map insert_key fst].
  destruct (String.ltb (key_of (fst y)) (key_of (fst x))); [| reflexivity].
  cbn [map]. now rewrite IH.
Qed.

(** Sorting the keys commutes with a change of the values. *)
Lemma sort_keys_map (f : user_info -> user_info) (data : store) :
  sort_keys (map (fun kv => (fst kv, f (snd kv))) data)
  = map (fun kv => (fst kv, f (snd kv))) (sort_keys data).
Proof.
  induction data as [|x l IH]; [reflexivity |].
  cbn [map sort_keys fold_right]. fold (sort_keys l).
  fold (sort_keys (map (fun kv => (fst kv, f (snd kv))) l)).
  now rewrite IH, insert_key_map.
Qed.

Lemma dict_get_map (f : user_info -> user_info) (uid : Z) (data : store) :
  dict_get uid (map (fun kv => (fst kv, f (snd kv))) data)
  = option_map f (dict_get uid data).
Proof.
  induction data as [|[k v] rest IH]; [reflexivity |].
  cbn [map fst snd dict_get]. destruct (k =? uid); [reflexivity | exact IH].
Qed.

Lemma check_users_total_sends
    (e : env) (offers : list Offer) (data : store) (w : world) :
  Forall well_formed offers ->
  Forall (fun kv => rate_ok (snd kv)) data ->
  (forall uid, delivery_contained e uid) ->
  exists evs,
    check_users e offers data w
    = (Ok (map (fun kv => (fst kv, transition offers (snd kv))) data),
       mkworld (file w) (log w ++ evs)) /\
    Forall (fun ev => exists uid n, dict_get uid data <> None /\ notifies uid n ev) evs.
Proof.
  intros Hwf Hok Hd. revert w.
  induction data as [|[uid info] rest IH]; intros w.
  - exists []. split; [| constructor]. cbn. rewrite app_nil_r. now destruct w.
  - inversion Hok as [|? ? Hi Hrest]; subst. cbn [snd] in Hi.
    destruct (process_user_total e offers uid info w Hwf Hi (Hd uid))
      as (evs1 & Hp & Hs1).
    destruct (IH Hrest (mkworld (file w) (log w ++ evs1))) as (evs2 & Hc & Hs2).
    exists (evs1 ++ evs2). split.
    + cbn [check_users map fst snd]. rewrite mbind_eq, Hp, mbind_eq, Hc.
      cbn [file log]. unfold ret. now rewrite app_assoc.
    + apply Forall_app. split.
      * apply (Forall_impl _ (P:=fun ev => exists n, notifies uid n ev));
          [| exact Hs1].
        intros ev [n Hn]. exists uid, n. split; [| exact Hn].
        cbn [dict_get]. now rewrite Z.eqb_refl.
      * apply (Forall_impl _ (P:=fun ev => exists uid0 n,
                 dict_get uid0 rest <> None /\ notifies uid0 n ev)); [| exact Hs2].
        intros ev (u & n & Hu & Hn). exists u, n. split; [| exact Hn].
        cbn [dict_get]. destruct (uid =? u); [discriminate | exact Hu].
Qed.

(** X14: a complete pass.  Over a store of canonical rates, with offers
    fetched and every delivery failure of a kind the notifier absorbs,
    [daily_check] returns normally; it sends only notifications, each to a
    user of the store; it writes the file once, as its last action; and the
    file then maps every user to the transition of the old record. *)
Theorem daily_check_complete_pass
    (e : env) (w : world) (data : store) (offers : list Offer) :
  file w = Some data -> data <> [] ->
  fetch_offers (response e) = Ok offers -> offers <> [] ->
  Forall (fun kv => rate_ok (snd kv)) data ->
  (forall uid, delivery_contained e uid) ->
  exists evs written,
    daily_check e w
    = (Ok tt, mkworld (Some written) (log w ++ evs ++ [WriteFile written])) /\
    Forall (fun ev => exists uid n, stored w uid <> None /\ notifies uid n ev) evs /\
    forall uid, dict_get uid written = option_map (transition offers) (stored w uid).
Proof.
  intros Hf Hne Ho Hno Hok Hd.
  destruct (fetch_offers_ranked _ _ Ho) as [Hwf _].
  destruct (check_users_total_sends e offers data w Hwf Hok Hd) as (evs & Hc & Hs).
  exists evs. eexists. split; [| split].
  - unfold daily_check. rewrite mbind_eq. unfold load_data. rewrite Hf.
    destruct data as [|kv rest]; [contradiction |].
    rewrite Ho. destruct offers as [|o os]; [contradiction |].
    rewrite mbind_eq, Hc. unfold save_data. cbn [file log].
    now rewrite <- app_assoc.
  - unfold stored. now rewrite Hf.
  - intros uid. unfold stored. rewrite Hf, dict_get_sort_keys. apply dict_get_map.
Qed.

Lemma daily_check_complete_pass_witness :
  exists evs written,
    daily_check (failing_env Forbidden) two_users
    = (Ok tt, mkworld (Some written)
                      (log two_users ++ evs ++ [WriteFile written])) /\
    Forall (fun ev => exists uid n,
              stored two_users uid <> None /\ notifies uid n ev) evs /\
    forall uid,
      dict_get uid written
      = option_map
          (transition [make_offer (raw_rated "B" "0.10") (mkdec false 10000 (-5))])
          (stored two_users uid).
Proof.
  apply (daily_check_complete_pass (failing_env Forbidden) two_users
           [(1, subscriber "0.20000" None); (2, subscriber "0.20000" None)]
           [make_offer (raw_rated "B" "0.10") (mkdec false 10000 (-5))]).
  - reflexivity.
  - discriminate.
  - reflexivity.
  - discriminate.
  - repeat constructor.
  - intros uid. split.
    + intros c n. right. left. reflexivity.
    + intros n. unfold failing_env, user_send.
      destruct (uid =? 1); right; reflexivity.
Defined.

(** X15: a pass repeated over the same offers is silent.  On the file that
    a complete pass wrote, the next pass with the same offers sends
    nothing, whatever the client would answer, and writes the same file
    again. *)
Theorem daily_check_repeated_pass
    (e : env) (data : store) (offers : list Offer) (sent : list event) :
  data <> [] ->
  fetch_offers (response e) = Ok offers -> offers <> [] ->
  Forall (fun kv => rate_ok (snd kv)) data ->
  let written :=
    sort_keys (map (fun kv => (fst kv, transition offers (snd kv))) data) in
  daily_check e (mkworld (Some written) sent)
  = (Ok tt, mkworld (Some written) (sent ++ [WriteFile written])).
Proof.
  intros Hne Ho Hno Hok. cbv zeta. rewrite sort_keys_map.
  assert (Hok' : Forall (fun kv => rate_ok (snd kv)) (sort_keys data))
    by (apply (Permutation_Forall (sort_keys_perm data)); exact Hok).
  assert (Hfix : sort_keys (sort_keys data) = sort_keys data)
    by apply sort_keys_fix, sort_keys_sorted.
  assert (Hsd : sort_keys data <> []).
  { intros E. apply Hne. apply Permutation_nil. rewrite <- E.
    apply Permutation_sym, sort_keys_perm. }
  revert Hok' Hfix Hsd. generalize (sort_keys data). intros sd Hok' Hfix Hsd.
  unfold daily_check. rewrite mbind_eq. unfold load_data. cbn [file].
  remember (map (fun kv => (fst kv, transition offers (snd kv))) sd) as wr eqn:W.
  destruct wr as [|kv rest];
    [symmetry in W; apply map_eq_nil in W; contradiction |].
  rewrite Ho. destruct offers as [|o os]; [contradiction |].
  rewrite W, mbind_eq.
  rewrite (check_users_settled e (o :: os) sd _ Hok').
  unfold save_data. cbn [file log].
  now rewrite sort_keys_map, Hfix.
Qed.

Lemma daily_check_repeated_pass_witness :
  daily_check (failing_env HTTPException)
    (mkworld (Some (sort_keys
        (map (fun kv => (fst kv,
                transition [make_offer (raw_rated "B" "0.10") (mkdec false 10000 (-5))]
                           (snd kv)))
             [(1, subscriber "0.20000" None); (2, subscriber "0.20000" None)]))) [])
  = (Ok tt,
     mkworld (Some (sort_keys
        (map (fun kv => (fst kv,
                transition [make_offer (raw_rated "B" "0.10") (mkdec false 10000 (-5))]
                           (snd kv)))
             [(1, subscriber "0.20000" None); (2, subscriber "0.20000" None)])))
       ([] ++ [WriteFile (sort_keys
        (map (fun kv => (fst kv,
                transition [make_offer (raw_rated "B" "0.10") (mkdec false 10000 (-5))]
                           (snd kv)))
             [(1, subscriber "0.20000" None); (2, subscriber "0.20000" None)]))])).
Proof.
  apply (daily_check_repeated_pass (failing_env HTTPException)
           [(1, subscriber "0.20000" None); (2, subscriber "0.20000" None)]
           [make_offer (raw_rated "B" "0.10") (mkdec false 10000 (-5))] []).
  - discriminate.
  - reflexivity.
  - discriminate.
  - repeat constructor.
Defined.

End PassProperties.

(** ** The notifier and the messages *)

Section Messages.

(** X16: when the failures are of a kind the notifier absorbs, it returns
    normally and leaves the file alone, and what it sends is fixed by the
    channel: with no usable channel, a direct message and nothing else;
    with a usable channel whose send succeeds, that channel message and
    nothing else; with a usable channel whose send fails, the channel
    message and then one direct message. *)
Theorem send_notification_absorbs
    (e : env) (uid : Z) (info : user_info) (n : notification) (w : world) :
  delivery_contained e uid ->
  exists evs,
    send_notification e uid info n w = (Ok tt, mkworld (file w) (log w ++ evs)) /\
    match usable_channel e info with
    | None => evs = [UserSend uid n]
    | Some c =>
        (channel_send e c uid n = Ok tt /\ evs = [ChannelSend c uid n]) \/
        (channel_send e c uid n <> Ok tt /\
         evs = [ChannelSend c uid n; UserSend uid n])
    end.
Proof.
  intros [Hc Hu]. unfold send_notification. fold (usable_channel e info).
  assert (Hdm : forall w0,
    (_ <~ emit (UserSend uid n) ;;
     match user_send e uid n with
     | Ok _ => ret tt
     | Raise Forbidden => ret tt
     | Raise other => raise other
     end) w0 = (Ok tt, mkworld (file w0) (log w0 ++ [UserSend uid n]))).
  { intros w0. unfold mbind, emit, ret.
    destruct (Hu n) as [-> | ->]; reflexivity. }
  destruct (usable_channel e info) as [c|];
    [| exists [UserSend uid n]; split; [apply Hdm | reflexivity]].
  unfold mbind at 1. unfold emit at 1.
  destruct (Hc c n) as [E | [E | E]]; rewrite E.
  - exists [ChannelSend c uid n]. split; [reflexivity |].
    left. split; reflexivity.
  - exists [ChannelSend c uid n; UserSend uid n]. split.
    + rewrite Hdm. cbn [file log]. now rewrite <- app_assoc.
    + right. split; [discriminate | reflexivity].
  - exists [ChannelSend c uid n; UserSend uid n]. split.
    + rewrite Hdm. cbn [file log]. now rewrite <- app_assoc.
    + right. split; [discriminate | reflexivity].
Qed.

(** A channel that refuses, then a delivered direct message; and a user
    whose remembered channel is not a text channel. *)
Lemma send_notification_absorbs_witness :
  (exists evs,
      send_notification (failing_env Forbidden) 1 (subscriber "0.20000" None)
        (mknote (Fin (mkdec false 20000 (-5))) offer_B
                (Fin (mkdec false 7500 (-2))) [])
        (mkworld None [])
      = (Ok tt, mkworld None ([] ++ evs)) /\
      ((Raise Forbidden = Ok tt /\
        evs = [ChannelSend 7 1 (mknote (Fin (mkdec false 20000 (-5))) offer_B
                                       (Fin (mkdec false 7500 (-2))) [])]) \/
       (Raise Forbidden <> Ok tt /\
        evs = [ChannelSend 7 1 (mknote (Fin (mkdec false 20000 (-5))) offer_B
                                       (Fin (mkdec false 7500 (-2))) []);
               UserSend 1 (mknote (Fin (mkdec false 20000 (-5))) offer_B
                                  (Fin (mkdec false 7500 (-2))) [])]))) /\
  (exists evs,
      send_notification
        (mkenv (one_offer "B" "0.10") (fun _ => false)
               (fun _ _ _ => Ok tt) (fun _ _ => Ok tt))
        1 (subscriber "0.20000" None)
        (mknote (Fin (mkdec false 20000 (-5))) offer_B
                (Fin (mkdec false 7500 (-2))) [])
        (mkworld None [])
      = (Ok tt, mkworld None ([] ++ evs)) /\
      evs = [UserSend 1 (mknote (Fin (mkdec false 20000 (-5))) offer_B
                                (Fin (mkdec false 7500 (-2))) [])]).
Proof.
  split.
  - apply (send_notification_absorbs (failing_env Forbidden) 1
             (subscriber "0.20000" None)).
    split; [intros c n; right; left; reflexivity | intros n; right; reflexivity].
  - apply (send_notification_absorbs
             (mkenv (one_offer "B" "0.10") (fun _ => false)
                    (fun _ _ _ => Ok tt) (fun _ _ => Ok tt))
             1 (subscriber "0.20000" None)).
    split; intros; left; reflexivity.
Defined.

Lemma rate_lt_scaled (a b : fdec) :
  dexp a = -5 -> dexp b = -5 ->
  rate_lt a b = true -> signed a < signed b.
Proof.
  intros Ha Hb. unfold rate_lt.
  rewrite (fcompare_at (-5) a b) by lia. unfold scaled. rewrite Ha, Hb.
  change (10 ^ (-5 - -5)) with 1. rewrite !Z.mul_1_r.
  destruct (Z.compare_spec (signed a) (signed b)); try discriminate. now intros _.
Qed.

Lemma in_firstn {A} (k : nat) (l : list A) (x : A) : In x (firstn k l) -> In x l.
Proof.
  intros H. rewrite <- (firstn_skipn k l). apply in_or_app. now left.
Qed.

(** X17: the notification of a pass.  It names the cheapest offer below the
    user's rate; the savings it quotes are the difference of the two rates
    times 750, rounded half-up to cents, and positive differences only; the
    other options are the next offers of the ranking, at most two, each
    strictly cheaper than the user's rate and not cheaper than the best. *)
Theorem process_user_notification
    (e : env) (offers : list Offer) (uid : Z) (info : user_info)
    (r : string) (u : fdec) (w : world) (best : Offer) (rest : list Offer) :
  fetch_offers (response e) = Ok offers ->
  rate info = Some r -> of_string r = Ok (Fin u) -> canonical u = true ->
  delivery_contained e uid ->
  filter (fun o => rate_lt (rate_dec o) u) offers = best :: rest ->
  dedup_state info <> (Some (id best), Some (rate_str best)) ->
  exists (cents : Z) (evs : list event),
    let n := mknote (Fin u) best (Fin (mkdec false (Z.to_N cents) (-2)))
                    (firstn 2 rest) in
    process_user e offers uid info w
    = (Ok (mark_notified info best), mkworld (file w) (log w ++ evs)) /\
    evs <> [] /\ Forall (notifies uid n) evs /\
    0 < signed u - signed (rate_dec best) /\
    2 * 1000 * cents <= 2 * ((signed u - signed (rate_dec best)) * 750) + 1000
                     < 2 * 1000 * cents + 2 * 1000 /\
    (List.length (firstn 2 rest) <= 2)%nat /\
    Forall (fun o => rate_lt (rate_dec o) u = true /\ offer_le best o) (firstn 2 rest).
Proof.
  intros Hf Hr Hu Hc Hd F Hn.
  destruct (fetch_offers_ranked _ _ Hf) as [Hwf Hs].
  assert (Hall : Forall (fun o => rate_lt (rate_dec o) u = true) (best :: rest)).
  { rewrite <- F. rewrite Forall_forall. intros o Ho.
    now apply filter_In in Ho as [_ Ho]. }
  assert (Hb : well_formed best).
  { rewrite Forall_forall in Hwf. apply (Hwf best).
    apply (proj1 (filter_In (fun o => rate_lt (rate_dec o) u) best offers)).
    rewrite F. now left. }
  destruct Hb as [Hbc _].
  destruct (canonical_spec _ Hbc) as (Eb & _ & _).
  destruct (canonical_spec _ Hc) as (Eu & _ & _).
  assert (Hpos : 0 < signed u - signed (rate_dec best)).
  { inversion Hall; subst. pose proof (rate_lt_scaled _ _ Eb Eu H1). lia. }
  destruct (money_savings_canonical u (rate_dec best) 750 Hc Hbc)
    as (cents & Hm & _ & _ & Hround); [split; [lia | reflexivity] |].
  cbv zeta in Hround. specialize (Hround Hpos).
  set (n := mknote (Fin u) best (Fin (mkdec false (Z.to_N cents) (-2)))
                   (firstn 2 rest)).
  destruct (send_notification_contained e uid info n w Hd)
    as (evs & Hne & Hev & Hsend).
  exists cents, evs. cbv zeta. fold n.
  split; [| repeat split; try assumption; try lia].
  - unfold process_user, mark_notified. rewrite Hr, Hu.
    unfold mbind, lift. rewrite cheaper_than_filter, F.
    cbv zeta. fold (already_notified info best).
    destruct (already_notified info best) eqn:A;
      [apply already_notified_iff in A; contradiction |].
    rewrite Hm. change (tl (firstn 3 (best :: rest))) with (firstn 2 rest).
    fold n. now rewrite Hsend.
  - apply firstn_le_length.
  - pose proof (cheaper_head_best offers u best rest Hs F) as Hle.
    inversion Hall; subst. inversion Hle; subst.
    rewrite Forall_forall in *. intros o Ho.
    apply in_firstn in Ho. split; auto.
Qed.

End Messages.

Section MessagesWitness.

Lemma process_user_notification_witness :
  exists (cents : Z) (evs : list event),
    process_user (quiet_env (one_offer "A" "0.09")) [repriced_offer] 42
                 told_of_A (mkworld None [])
    = (Ok (mark_notified told_of_A repriced_offer), mkworld None ([] ++ evs)) /\
    evs <> [] /\
    Forall (notifies 42 (mknote (Fin (mkdec false 12641 (-5))) repriced_offer
                                (Fin (mkdec false (Z.to_N cents) (-2)))
                                (firstn 2 []))) evs /\
    0 < 12641 - 9000 /\
    2 * 1000 * cents <= 2 * ((12641 - 9000) * 750) + 1000
                     < 2 * 1000 * cents + 2 * 1000 /\
    (List.length (firstn 2 (@nil Offer)) <= 2)%nat /\
    Forall (fun o => rate_lt (rate_dec o) (mkdec false 12641 (-5)) = true /\
                     offer_le repriced_offer o) (firstn 2 []).
Proof.
  apply (process_user_notification
           (quiet_env (one_offer "A" "0.09")) [repriced_offer] 42 told_of_A
           "0.12641" (mkdec false 12641 (-5)) (mkworld None [])
           repriced_offer []); try reflexivity.
  - split; intros; left; reflexivity.
  - discriminate.
Defined.

End MessagesWitness.

(** ** checknow *)

Section CheckNow.

Lemma fle_not_lt (a b u : fdec) :
  fle a b -> rate_lt a u = false -> rate_lt b u = false.
Proof.
  unfold fle, rate_lt.
  set (k := Z.min (dexp a) (Z.min (dexp b) (dexp u))).
  rewrite (fcompare_at k a b), (fcompare_at k a u), (fcompare_at k b u)
    by (subst k; lia).
  destruct (Z.compare_spec (scaled k a) (scaled k b)); try congruence;
    destruct (Z.compare_spec (scaled k a) (scaled k u)); try discriminate;
    destruct (Z.compare_spec (scaled k b) (scaled k u)); try reflexivity;
    intros; exfalso; lia.
Qed.

(** In a ranked list, an offer below the rate exists only if the first
    offer is one. *)
Lemma cheaper_of_ranked (best : Offer) (rest : list Offer) (u : fdec) :
  StronglySorted offer_le (best :: rest) ->
  rate_lt (rate_dec best) u = false ->
  filter (fun o => rate_lt (rate_dec o) u) (best :: rest) = [].
Proof.
  intros Hs Hb. inversion Hs as [|? ? _ Hall]; subst. clear Hs.
  cbn [filter]. rewrite Hb.
  induction rest as [|o rest IH]; [reflexivity |].
  inversion Hall; subst. cbn [filter].
  rewrite (fle_not_lt (rate_dec best) (rate_dec o) u) by assumption.
  now apply IH.
Qed.

(** X18: [checknow] for a user with a stored rate, when the fetch returns
    offers: the reply shows the first offer of the ranking, and quotes a
    cheaper rate exactly when that offer is strictly below the user's
    rate; the rate quoted is then the rate of the offer shown.  Nothing is
    written or sent. *)
Theorem checknow_reports_best
    (e : env) (ctx : context) (w : world) (info : user_info)
    (r : string) (u : fdec) (best : Offer) (rest : list Offer) :
  stored w (author_id ctx) = Some info ->
  rate info = Some r -> of_string r = Ok (Fin u) ->
  fetch_offers (response e) = Ok (best :: rest) ->
  checknow e ctx w
  = (Ok (CheckBest best (Fin u)
           (if rate_lt (rate_dec best) u then Some (rate_str best) else None)),
     w).
Proof.
  intros Hs Hr Hu Hf. unfold stored in Hs.
  destruct (fetch_offers_ranked _ _ Hf) as [_ Hsorted].
  unfold checknow. rewrite mbind_eq. unfold load_data. cbv beta iota.
  rewrite Hs, Hr, Hu. rewrite mbind_eq. unfold lift at 1. cbv beta iota.
  rewrite Hf, mbind_eq. unfold lift. rewrite cheaper_than_filter.
  destruct (rate_lt (rate_dec best) u) eqn:B.
  - cbn [filter]. now rewrite B.
  - now rewrite (cheaper_of_ranked best rest u Hsorted B).
Qed.

Lemma checknow_reports_best_witness :
  checknow (quiet_env (Ok feed4)) (mkctx 42 7 None) one_subscriber
  = (Ok (CheckBest (make_offer (raw_rated "b" "0.10") (mkdec false 10000 (-5)))
           (Fin (mkdec false 12641 (-5)))
           (if rate_lt (rate_dec (make_offer (raw_rated "b" "0.10")
                                             (mkdec false 10000 (-5))))
                       (mkdec false 12641 (-5))
            then Some (rate_str (make_offer (raw_rated "b" "0.10")
                                            (mkdec false 10000 (-5))))
            else None)),
     one_subscriber).
Proof.
  apply (checknow_reports_best (quiet_env (Ok feed4)) (mkctx 42 7 None)
           one_subscriber (subscriber "0.12641" None) "0.12641"
           (mkdec false 12641 (-5))
           (make_offer (raw_rated "b" "0.10") (mkdec false 10000 (-5)))
           [make_offer (raw_rated "c" "0.10") (mkdec false 10000 (-5));
            make_offer (raw_rated "a" "0.15") (mkdec false 15000 (-5));
            make_offer (raw_rated "d" "0.20") (mkdec false 20000 (-5))]);
    reflexivity.
Defined.

End CheckNow.

(** ** Accepted rates *)

Section AcceptedRates.
Import Text.

(** X1: for a text [0.] followed by [n >= 5] digits, the strict parser
    returns the rate with five places nearest to the value written, a tie
    going up; the rate lies between 0 and 1 inclusive, and it is below 1
    exactly when the value written is below 0.999995. *)
Theorem parse_user_rate_valid (raw : string) (frac : list ascii) :
  strip (list_ascii_of_string raw) = "0"%char :: "."%char :: frac ->
  forallb isdigit frac = true ->
  (5 <= List.length frac)%nat ->
  exists r : Z,
    parse_user_rate raw = Ok (Fin (mkdec false (Z.to_N r) (-5))) /\
    0 <= r <= 10 ^ 5 /\
    let k := Z.of_nat (List.length frac) - 5 in
    let c := Z.of_N (digits_val frac) in
    2 * 10 ^ k * r <= 2 * c + 10 ^ k < 2 * 10 ^ k * r + 2 * 10 ^ k /\
    (r < 10 ^ 5 <-> 2 * c + 10 ^ k < 2 * 10 ^ k * 10 ^ 5).
Proof.
  intros Hs Hd Hn.
  destruct (parse_user_rate_rounds raw frac Hs Hd Hn) as (r & Hp & Hr & Hnear).
  exists r. split; [exact Hp | split; [exact Hr |]].
  cbv zeta in *. split; [exact Hnear |].
  pose proof (pow10_pos (Z.of_nat (List.length frac) - 5) ltac:(lia)) as Hpos.
  split; intros H; nia.
Qed.

Lemma parse_user_rate_valid_witness :
  exists r : Z,
    parse_user_rate "0.123455" = Ok (Fin (mkdec false (Z.to_N r) (-5))) /\
    0 <= r <= 10 ^ 5 /\
    let k := Z.of_nat (List.length (list_ascii_of_string "123455")) - 5 in
    let c := Z.of_N (digits_val (list_ascii_of_string "123455")) in
    2 * 10 ^ k * r <= 2 * c + 10 ^ k < 2 * 10 ^ k * r + 2 * 10 ^ k /\
    (r < 10 ^ 5 <-> 2 * c + 10 ^ k < 2 * 10 ^ k * 10 ^ 5).
Proof.
  apply (parse_user_rate_valid "0.123455" (list_ascii_of_string "123455")).
  - reflexivity.
  - reflexivity.
  - simpl. lia.
Defined.

(** X19: a rate the lenient parser returns has five places and lies
    between 0 and 1 inclusive; a negative sign can only be that of a
    zero. *)
Theorem parse_offer_rate_in_range (obj : raw_offer) (y : fdec) :
  parse_offer_rate obj = Ok (Some y) ->
  dexp y = -5 /\ 0 <= signed y <= 100000 /\
  (dneg y = true -> dcoef y = 0%N).
Proof.
  intros H. pose proof (parse_offer_rate_canonical obj y H) as Hc.
  destruct (canonical_spec y Hc) as (He & Hs & Hv).
  repeat split; try lia.
  intros Hn. unfold signed in Hv. rewrite Hn in Hv. lia.
Qed.

Lemma parse_offer_rate_in_range_witness :
  dexp (mkdec false 12290 (-5)) = -5 /\
  0 <= signed (mkdec false 12290 (-5)) <= 100000 /\
  (dneg (mkdec false 12290 (-5)) = true -> dcoef (mkdec false 12290 (-5)) = 0%N).
Proof.
  exact (parse_offer_rate_in_range
           (mkraw None None None None None None None None None
                  (Some (SNum "0.1229")) None None)
           (mkdec false 12290 (-5)) eq_refl).
Defined.

(** X20: the first [setrate] of a user.  For an accepted text and a user
    the file does not know, the stored record holds the canonical rate, the
    channel and guild of the command, and null notification fields: the
    user starts unnotified. *)
Theorem setrate_new_user (ctx : context) (rate_arg : string) (d : Decimal) (w : world) :
  parse_user_rate rate_arg = Ok d ->
  stored w (author_id ctx) = None ->
  stored (snd (setrate ctx rate_arg w)) (author_id ctx)
  = Some {| rate := Some (format_f 5 d);
            notify_channel_id := Some (Some (channel_id ctx));
            notify_guild_id := Some (guild_id ctx);
            last_notified_offer_id := Some None;
            last_notified_rate := Some None |}.
Proof.
  intros Hp Hs. unfold stored in *.
  destruct (setrate_stored ctx rate_arg d w Hp) as (data' & Hf & Hg).
  rewrite Hf, Hg. now rewrite Hs.
Qed.

Lemma setrate_new_user_witness :
  stored (snd (setrate (mkctx 42 7 (Some 9)) "0.123455" (mkworld None []))) 42
  = Some {| rate := Some (format_f 5 (Fin (mkdec false 12346 (-5))));
            notify_channel_id := Some (Some 7);
            notify_guild_id := Some (Some 9);
            last_notified_offer_id := Some None;
            last_notified_rate := Some None |}.
Proof.
  exact (setrate_new_user (mkctx 42 7 (Some 9)) "0.123455"
           (Fin (mkdec false 12346 (-5))) (mkworld None []) eq_refl eq_refl).
Defined.

End AcceptedRates.

(** ** The de-duplication of a complete pass *)

Section PassDedup.

Lemma notifies_inj (uid uid' : Z) (n n' : notification) (ev : event) :
  notifies uid n ev -> notifies uid' n' ev -> uid = uid' /\ n = n'.
Proof.
  destruct ev; simpl; try contradiction; intros [<- <-] [<- <-]; now split.
Qed.

Lemma due_transition (offers : list Offer) (info : user_info) (best : Offer) :
  due offers info best -> transition offers info = mark_notified info best.
Proof.
  intros (r & u & rest & Hr & Hu & Hf & Hn). unfold transition.
  rewrite Hr, Hu, Hf.
  destruct (already_notified info best) eqn:A; [| reflexivity].
  apply already_notified_iff in A. contradiction.
Qed.

Lemma due_unique (offers : list Offer) (info : user_info) (b1 b2 : Offer) :
  due offers info b1 -> due offers info b2 -> b1 = b2.
Proof.
  intros (r & u & rest & Hr & Hu & Hf & _) (r' & u' & rest' & Hr' & Hu' & Hf' & _).
  rewrite Hr in Hr'. inversion Hr'; subst r'.
  rewrite Hu in Hu'. inversion Hu'; subst u'.
  rewrite Hf in Hf'. now inversion Hf'.
Qed.

(** The loop body with its sends: none when no notification is due, the
    sends of one notification for [best] when one is. *)
Lemma process_user_events
    (e : env) (offers : list Offer) (uid : Z) (info : user_info) (w : world) :
  Forall well_formed offers -> rate_ok info -> delivery_contained e uid ->
  exists evs,
    process_user e offers uid info w
    = (Ok (transition offers info), mkworld (file w) (log w ++ evs)) /\
    (((forall best, ~ due offers info best) /\ evs = []) \/
     (exists best n,
         due offers info best /\ n_best n = best /\
         evs <> [] /\ Forall (notifies uid n) evs)).
Proof.
  intros Hwf Hok Hd. unfold process_user, transition, rate_ok, due in *.
  assert (Hnil : (Ok (A:=user_info) info, w)
                 = (Ok info, mkworld (file w) (log w ++ []))).
  { rewrite app_nil_r. now destruct w. }
  destruct (rate info) as [r|] eqn:R.
  2:{ exists []. split; [exact Hnil | left; split; [| reflexivity]].
      intros best (r' & _ & _ & Hr & _). discriminate Hr. }
  destruct (of_string r) as [[u|s|s]|ex] eqn:P; try contradiction.
  2:{ exists []. split; [exact Hnil | left; split; [| reflexivity]].
      intros best (r' & u' & _ & Hr & Hu & _).
      inversion Hr; subst r'. rewrite P in Hu. discriminate Hu. }
  unfold mbind, lift. rewrite cheaper_than_filter.
  destruct (filter (fun o => rate_lt (rate_dec o) u) offers)
    as [|best rest] eqn:F.
  { exists []. split; [exact Hnil | left; split; [| reflexivity]].
    intros b (r' & u' & rest' & Hr & Hu & Hf & _).
    inversion Hr; subst r'. rewrite P in Hu. inversion Hu; subst u'.
    rewrite F in Hf. discriminate Hf. }
  cbv zeta. fold (already_notified info best).
  destruct (already_notified info best) eqn:A.
  { exists []. split; [exact Hnil | left; split; [| reflexivity]].
    intros b (r' & u' & rest' & Hr & Hu & Hf & Hn).
    inversion Hr; subst r'. rewrite P in Hu. inversion Hu; subst u'.
    rewrite F in Hf. inversion Hf; subst b rest'.
    apply Hn. now apply already_notified_iff. }
  assert (Hb : canonical (rate_dec best) = true).
  { rewrite Forall_forall in Hwf. apply (Hwf best).
    apply (proj1 (filter_In (fun o => rate_lt (rate_dec o) u) best offers)).
    rewrite F. now left. }
  destruct (money_savings_canonical u (rate_dec best) 750 Hok Hb)
    as (cents & Hm & _); [split; [lia | reflexivity] |].
  rewrite Hm.
  set (n := mknote (Fin u) best (Fin (mkdec false (Z.to_N cents) (-2)))
                   (tl (firstn 3 (best :: rest)))).
  destruct (send_notification_contained e uid info n w Hd)
    as (evs & Hne & Hall & Hsend).
  exists evs. rewrite Hsend. unfold mark_notified. rewrite R.
  split; [reflexivity |].
  right. exists best, n. repeat split; try assumption.
  exists r, u, rest. repeat split; try assumption.
  intros Hpair. apply already_notified_iff in Hpair. congruence.
Qed.

Lemma check_users_events
    (e : env) (offers : list Offer) (data : store) (w : world) :
  Forall well_formed offers ->
  Forall (fun kv => rate_ok (snd kv)) data ->
  (forall uid, delivery_contained e uid) ->
  exists evs,
    check_users e offers data w
    = (Ok (map (fun kv => (fst kv, transition offers (snd kv))) data),
       mkworld (file w) (log w ++ evs)) /\
    (forall ev, In ev evs ->
       exists uid info best n,
         In (uid, info) data /\ due offers info best /\
         n_best n = best /\ notifies uid n ev) /\
    (forall uid info best,
       In (uid, info) data -> due offers info best ->
       exists n ev, n_best n = best /\ In ev evs /\ notifies uid n ev).
Proof.
  intros Hwf Hok Hd. revert w.
  induction data as [|[uid info] rest IH]; intros w.
  - exists []. split; [| split].
    + cbn. rewrite app_nil_r. now destruct w.
    + intros ev [].
    + intros ? ? ? [].
  - inversion Hok as [|? ? Hi Hrest]; subst. cbn [snd] in Hi.
    destruct (process_user_events e offers uid info w Hwf Hi (Hd uid))
      as (evs1 & Hp & Hcase).
    destruct (IH Hrest (mkworld (file w) (log w ++ evs1)))
      as (evs2 & Hc & Hin2 & Hdue2).
    exists (evs1 ++ evs2). split; [| split].
    + cbn [check_users map fst snd]. rewrite mbind_eq, Hp, mbind_eq, Hc.
      cbn [file log]. unfold ret. now rewrite app_assoc.
    + intros ev Hev. apply in_app_or in Hev as [Hev | Hev].
      * destruct Hcase as [[_ ->] | (best & n & Hdue & Hn & _ & Hall)];
          [contradiction |].
        exists uid, info, best, n. repeat split; try assumption; [now left |].
        rewrite Forall_forall in Hall. now apply Hall.
      * destruct (Hin2 ev Hev) as (u' & i' & b' & n' & Hin & Hdue & Hn & Hnot).
        exists u', i', b', n'. repeat split; try assumption. now right.
    + intros u' i' b' [Heq | Hin] Hdue.
      * inversion Heq; subst u' i'.
        destruct Hcase as [[Hno _] | (best & n & Hdue' & Hn & Hne & Hall)];
          [now apply Hno in Hdue |].
        rewrite (due_unique _ _ _ _ Hdue Hdue').
        destruct evs1 as [|ev evs1]; [contradiction |].
        exists n, ev. repeat split; try assumption; [now left |].
        now inversion Hall.
      * destruct (Hdue2 u' i' b' Hin Hdue) as (n & ev & Hn & Hev & Hnot).
        exists n, ev. repeat split; try assumption.
        apply in_or_app. now right.
Qed.

Lemma dict_get_in (uid : Z) (info : user_info) (data : store) :
  dict_get uid data = Some info -> In (uid, info) data.
Proof.
  induction data as [|[k v] rest IH]; [discriminate |].
  cbn [dict_get]. destruct (Z.eqb_spec k uid) as [-> | Hne].
  - intros H. inversion H. now left.
  - intros H. right. now apply IH.
Qed.

Lemma dict_get_nodup (uid : Z) (info : user_info) (data : store) :
  NoDup (map fst data) -> In (uid, info) data -> dict_get uid data = Some info.
Proof.
  induction data as [|[k v] rest IH]; [intros _ [] |].
  cbn [map fst dict_get]. intros Hnd [Heq | Hin].
  - inversion Heq; subst. now rewrite Z.eqb_refl.
  - inversion Hnd as [|? ? Hk Hnd']; subst.
    destruct (Z.eqb_spec k uid) as [-> | Hne]; [| now apply IH].
    exfalso. apply Hk. apply (in_map fst) in Hin. exact Hin.
Qed.

(** X22: the de-duplication of a complete pass, in the file and in the
    messages.  Over a store of canonical rates with distinct keys, with
    offers fetched and delivery failures of the kinds the notifier
    absorbs, [daily_check] returns normally and writes the file last; for
    every user with a rate: with no offer strictly cheaper, or with a best
    cheaper offer whose pair is the stored pair, the file keeps the record
    and no message of the pass goes to the user; otherwise the file has
    the record marked with the pair of the best offer, a notification for
    that offer goes to the user, and every message to the user is that
    notification. *)
Theorem daily_check_dedup_pass
    (e : env) (w : world) (data : store) (offers : list Offer) :
  file w = Some data -> data <> [] -> NoDup (map fst data) ->
  fetch_offers (response e) = Ok offers -> offers <> [] ->
  Forall (fun kv => rate_ok (snd kv)) data ->
  (forall uid, delivery_contained e uid) ->
  exists evs written,
    daily_check e w
    = (Ok tt, mkworld (Some written) (log w ++ evs ++ [WriteFile written])) /\
    forall uid info r u,
      stored w uid = Some info ->
      rate info = Some r -> of_string r = Ok (Fin u) ->
      let silent := forall ev n, In ev evs -> ~ notifies uid n ev in
      match filter (fun o => rate_lt (rate_dec o) u) offers with
      | [] => dict_get uid written = Some info /\ silent
      | best :: _ =>
          (dedup_state info = (Some (id best), Some (rate_str best)) ->
           dict_get uid written = Some info /\ silent) /\
          (dedup_state info <> (Some (id best), Some (rate_str best)) ->
           dict_get uid written = Some (mark_notified info best) /\
           (exists n ev, n_best n = best /\ In ev evs /\ notifies uid n ev) /\
           (forall ev n, In ev evs -> notifies uid n ev -> n_best n = best))
      end.
Proof.
  intros Hf Hne Hnd Ho Hno Hok Hd.
  destruct (fetch_offers_ranked _ _ Ho) as [Hwf _].
  destruct (check_users_events e offers data w Hwf Hok Hd)
    as (evs & Hc & Hin & Hdue).
  exists evs. eexists. split.
  - unfold daily_check. rewrite mbind_eq. unfold load_data. rewrite Hf.
    destruct data as [|kv rest]; [contradiction |].
    rewrite Ho. destruct offers as [|o os]; [contradiction |].
    rewrite mbind_eq, Hc. unfold save_data. cbn [file log].
    now rewrite <- app_assoc.
  - intros uid info r u Hs Hr Hu silent. unfold stored in Hs. rewrite Hf in Hs.
    rewrite dict_get_sort_keys, dict_get_map, Hs. cbn [option_map].
    assert (Hsilent : (forall best, ~ due offers info best) -> silent).
    { intros Hno' ev n Hev Hnot.
      destruct (Hin ev Hev) as (u' & i' & b' & n' & Hin' & Hdue' & _ & Hnot').
      destruct (notifies_inj _ _ _ _ _ Hnot Hnot') as [<- _].
      rewrite (dict_get_nodup uid i' data Hnd Hin') in Hs.
      inversion Hs; subst i'. now apply (Hno' b'). }
    destruct (filter (fun o => rate_lt (rate_dec o) u) offers)
      as [|best rest] eqn:F.
    + split.
      * unfold transition. now rewrite Hr, Hu, F.
      * apply Hsilent. intros b (r' & u' & rest' & Hr' & Hu' & Hf' & _).
        rewrite Hr in Hr'. inversion Hr'; subst r'.
        rewrite Hu in Hu'. inversion Hu'; subst u'.
        rewrite F in Hf'. discriminate Hf'.
    + split.
      * intros Hpair. split.
        -- unfold transition. rewrite Hr, Hu, F.
           now rewrite (proj2 (already_notified_iff info best) Hpair).
        -- apply Hsilent. intros b (r' & u' & rest' & Hr' & Hu' & Hf' & Hn).
           rewrite Hr in Hr'. inversion Hr'; subst r'.
           rewrite Hu in Hu'. inversion Hu'; subst u'.
           rewrite F in Hf'. inversion Hf'; subst b rest'. contradiction.
      * intros Hpair.
        assert (Hdue0 : due offers info best)
          by (exists r, u, rest; now repeat split).
        split; [now apply f_equal, due_transition | split].
        -- apply (Hdue uid info best); [now apply dict_get_in | exact Hdue0].
        -- intros ev n Hev Hnot.
           destruct (Hin ev Hev) as (u' & i' & b' & n' & Hin' & Hdue' & Hn' & Hnot').
           destruct (notifies_inj _ _ _ _ _ Hnot Hnot') as [<- <-].
           rewrite (dict_get_nodup uid i' data Hnd Hin') in Hs.
           inversion Hs; subst i'.
           rewrite Hn'. apply (due_unique offers info); assumption.
Qed.

Lemma daily_check_dedup_pass_witness :
  exists evs written,
    daily_check (failing_env Forbidden) mixed_users
    = (Ok tt, mkworld (Some written)
                      (log mixed_users ++ evs ++ [WriteFile written])) /\
    forall uid info r u,
      stored mixed_users uid = Some info ->
      rate info = Some r -> of_string r = Ok (Fin u) ->
      match filter (fun o => rate_lt (rate_dec o) u) [offer_B] with
      | [] => dict_get uid written = Some info /\
              (forall ev n, In ev evs -> ~ notifies uid n ev)
      | best :: _ =>
          (dedup_state info = (Some (id best), Some (rate_str best)) ->
           dict_get uid written = Some info /\
           (forall ev n, In ev evs -> ~ notifies uid n ev)) /\
          (dedup_state info <> (Some (id best), Some (rate_str best)) ->
           dict_get uid written = Some (mark_notified info best) /\
           (exists n ev, n_best n = best /\ In ev evs /\ notifies uid n ev) /\
           (forall ev n, In ev evs -> notifies uid n ev -> n_best n = best))
      end.
Proof.
  apply (daily_check_dedup_pass (failing_env Forbidden) mixed_users
           [(1, subscriber "0.20000" None);
            (2, subscriber "0.20000" (Some ("B", "0.10000")%string))]
           [offer_B]).
  - reflexivity.
  - discriminate.
  - cbn. constructor.
    + intros [H | []]. discriminate H.
    + constructor; [intros [] | constructor].
  - reflexivity.
  - discriminate.
  - repeat constructor.
  - intros uid. split.
    + intros c n. right. left. reflexivity.
    + intros n. unfold failing_env, user_send.
      destruct (uid =? 1); right; reflexivity.
Defined.

End PassDedup.
